(** * ArchAxis: axis geometry and bubble numbering

    A shallow embedding of the two computational kernels of
    [src/Mod/BIM/ArchAxis.py]:

    - [_ViewProviderAxis.getNumber], the numbering scheme of the axis
      bubbles (lines 541-584);
    - [_Axis.execute], which turns the [Distances]/[Angles]/[Length]/[Limit]
      properties into line segments and stores them in [Shape]
      (lines 98-129).

    Python [int] is [Z], [str] is [string], a raised exception is a value of
    [result].  Python [float] is kept abstract behind the interface
    [PyFloat], of which binary64, the [float] of CPython, is an instance;
    the real numbers are a second instance, on which examples are
    evaluated.  What the program does is proved for every instance or for
    binary64; what holds of the real numbers only (a product undoing a
    quotient, the cosine of a right angle being zero) is said to be so
    where it is used. *)

From Stdlib Require Import ZArith String Ascii List Sorted Bool Lia DecimalString.
From Stdlib Require Import Reals Lra Floats.
From Stdlib Require DecimalZ DecimalPos.
Import ListNotations.

Open Scope Z_scope.
Open Scope string_scope.

(** ** Exceptions *)

Inductive exn : Set :=
| IndexError
| ZeroDivisionError
| ValueError.

Inductive result (A : Type) : Type :=
| Ok (a : A)
| Raise (e : exn).

Arguments Ok {A} a.
Arguments Raise {A} e.

Definition bind {A B : Type} (r : result A) (k : A -> result B) : result B :=
  match r with
  | Ok a => k a
  | Raise e => Raise e
  end.

Notation "x <- r ;; k" := (bind r (fun x => k))
  (at level 61, r at next level, right associativity).

(** ** Strings *)

(** [str(z)] for an [int]. *)
Definition str (z : Z) : string := NilZero.string_of_int (Z.to_int z).

Fixpoint zeros (k : nat) : string :=
  match k with
  | O => ""
  | S k' => String "0" (zeros k')
  end.

(** [s.zfill(width)]: zeros go after a leading sign. *)
Definition zfill (width : nat) (s : string) : string :=
  if (width <=? String.length s)%nat then s
  else
    let pad := zeros (width - String.length s) in
    match s with
    | String c rest =>
        if (Ascii.eqb c "+" || Ascii.eqb c "-")%bool
        then String c (pad ++ rest)
        else pad ++ s
    | EmptyString => pad
    end.

(** [s[i]]: a negative index counts from the end, anything outside
    [-len(s) <= i < len(s)] raises [IndexError]. *)
Definition getitem (s : string) (i : Z) : result string :=
  let len := Z.of_nat (String.length s) in
  let j := if (i <? 0)%Z then i + len else i in
  if ((0 <=? j)%Z && (j <? len)%Z)%bool then
    match String.get (Z.to_nat j) s with
    | Some c => Ok (String c "")
    | None => Raise IndexError
    end
  else Raise IndexError.

Definition upper_ascii (c : ascii) : ascii :=
  let k := nat_of_ascii c in
  if ((97 <=? k) && (k <=? 122))%nat then ascii_of_nat (k - 32) else c.

(** [s.upper()] on ASCII text. *)
Fixpoint upper (s : string) : string :=
  match s with
  | EmptyString => EmptyString
  | String c rest => String (upper_ascii c) (upper rest)
  end.

(** ** The numbering scheme: [_ViewProviderAxis.getNumber] *)

(** What [getNumber] reads of the view object: [vobj.Object.CustomNumber]
    and [vobj.NumberingStyle], each [None] when [hasattr] fails.
    [StartNumber] is a property of the view object which [getNumber] does
    not read: its caller [onChanged] turns it into the first [num]. *)
Record ViewObject : Set := {
  CustomNumber : option string;
  NumberingStyle : option string;
  StartNumber : option Z
}.

(** What a call of [getNumber] does. *)
Inductive outcome : Set :=
| Returns (s : string)
| ReturnsNone
| Raises (e : exn)
| OutOfFuel.

Definition outcome_of (r : result string) : outcome :=
  match r with
  | Ok s => Returns s
  | Raise e => Raises e
  end.

Definition chars : string := "abcdefghijklmnopqrstuvwxyz".

Definition roman : list (string * Z) :=
  [("M", 1000); ("CM", 900); ("D", 500); ("CD", 400);
   ("C", 100); ("XC", 90); ("L", 50); ("XL", 40);
   ("X", 10); ("IX", 9); ("V", 5); ("IV", 4); ("I", 1)].

(** [while n >= integer: result += numeral; n -= integer].  The fuel bounds
    the number of iterations; [None] is fuel exhausted. *)
Fixpoint roman_while (fuel : nat) (numeral : string) (integer : Z)
    (result : string) (n : Z) : option (string * Z) :=
  if (n >=? integer)%Z then
    match fuel with
    | O => None
    | S fuel' =>
        roman_while fuel' numeral integer (result ++ numeral) (n - integer)
    end
  else Some (result, n).

(** [for numeral, integer in roman: while ...]. *)
Fixpoint roman_for (fuel : nat) (table : list (string * Z))
    (result : string) (n : Z) : option (string * Z) :=
  match table with
  | [] => Some (result, n)
  | (numeral, integer) :: rest =>
      match roman_while fuel numeral integer result n with
      | Some (result', n') => roman_for fuel rest result' n'
      | None => None
      end
  end.

Definition getNumber (fuel : nat) (vobj : ViewObject) (num : Z) : outcome :=
  match CustomNumber vobj with
  | Some (String c s) => Returns (String c s)
  | _ =>
      match NumberingStyle vobj with
      | Some style =>
          if style =? "1,2,3" then Returns (str (num + 1))
          else if style =? "01,02,03" then Returns (zfill 2 (str (num + 1)))
          else if style =? "001,002,003" then Returns (zfill 3 (str (num + 1)))
          else if style =? "A,B,C" then
            outcome_of (
              let result := "" in
              let base := num / 26 in
              result <- (if negb (base =? 0)%Z
                         then c <- getitem chars base ;; Ok (result ++ upper c)
                         else Ok result) ;;
              let remainder := num mod 26 in
              c <- getitem chars remainder ;;
              Ok (result ++ upper c))
          else if style =? "a,b,c" then
            outcome_of (
              let result := "" in
              let base := num / 26 in
              result <- (if negb (base =? 0)%Z
                         then c <- getitem chars base ;; Ok (result ++ c)
                         else Ok result) ;;
              let remainder := num mod 26 in
              c <- getitem chars remainder ;;
              Ok (result ++ c))
          else if style =? "I,II,III" then
            let result := "" in
            let n := num in
            let n := n + 1 in
            match roman_for fuel roman result n with
            | Some (result, _) => Returns result
            | None => OutOfFuel
            end
          else if style =? "L0,L1,L2" then Returns ("L" ++ str num)
          else ReturnsNone
      | None => Returns (str (num + 1))
      end
  end.

(** The labeler as the specification names it: the numbering style is one
    of the seven entries of the [NumberingStyle] enumeration
    ([setProperties], line 187). *)
Inductive LabelStyle : Set :=
| Numeric | Numeric02 | Numeric003 | UpperAlpha | LowerAlpha | Roman | Prefixed.

Definition style_name (style : LabelStyle) : string :=
  match style with
  | Numeric => "1,2,3"
  | Numeric02 => "01,02,03"
  | Numeric003 => "001,002,003"
  | UpperAlpha => "A,B,C"
  | LowerAlpha => "a,b,c"
  | Roman => "I,II,III"
  | Prefixed => "L0,L1,L2"
  end.

Definition label (fuel : nat) (index : Z) (style : LabelStyle)
    (startNumber : Z) (customOverride : string) : outcome :=
  getNumber fuel
    {| CustomNumber := Some customOverride;
       NumberingStyle := Some (style_name style);
       StartNumber := Some startNumber |}
    index.

(** A view object without custom number and with the given style. *)
Definition plain (vobj : ViewObject) (style : string) : Prop :=
  (CustomNumber vobj = None \/ CustomNumber vobj = Some "")
  /\ NumberingStyle vobj = Some style.

(** ** Floating-point numbers *)

(** The operations on [float] that [execute] uses.  [float_of_int] is the
    conversion applied to the [int] literals [0] and [100], [lit_0_01] the
    literal [0.01], [fbool] the truthiness of a float (it is false on zero
    only), [math_radians] the function of the [math] module, [math_isinf]
    the test that tells the two infinities, [libm_sin] and [libm_cos] the
    sine and the cosine of the C library, which [math.sin] and [math.cos]
    call on any argument that is not infinite (see [math_sin]).
    Division is [fdiv] where the divisor is truthy; on a zero divisor
    Python raises, see [truediv]. *)
Class PyFloat (F : Type) : Type := {
  float_of_int : Z -> F;
  lit_0_01 : F;
  fadd : F -> F -> F;
  fmul : F -> F -> F;
  fdiv : F -> F -> F;
  fneg : F -> F;
  fabs : F -> F;
  flt : F -> F -> bool;
  fbool : F -> bool;
  math_radians : F -> F;
  math_isinf : F -> bool;
  libm_sin : F -> F;
  libm_cos : F -> F
}.

(** What the proofs need of the numbers: zero is falsy, a number above
    zero is truthy, and a number whose absolute value is not below [0.01]
    is truthy (so it is no zero divisor). *)
Class PyFloatLaws (F : Type) {ops : PyFloat F} : Prop := {
  fbool_zero : fbool (float_of_int 0) = false;
  fbool_pos : forall a : F, flt (float_of_int 0) a = true -> fbool a = true;
  fbool_guard : forall c : F, flt (fabs c) lit_0_01 = false -> fbool c = true
}.

(** Real numbers: arithmetic without rounding, overflow or NaN; no real
    number is infinite. *)
#[export] Instance real_float : PyFloat R := {|
  float_of_int := IZR;
  lit_0_01 := (1 / 100)%R;
  fadd := Rplus;
  fmul := Rmult;
  fdiv := Rdiv;
  fneg := Ropp;
  fabs := Rabs;
  flt := fun a b => if Rlt_dec a b then true else false;
  fbool := fun a => if Req_dec_T a 0%R then false else true;
  math_radians := fun a => (a * (PI / 180))%R;
  math_isinf := fun _ => false;
  libm_sin := sin;
  libm_cos := cos
|}.

(** IEEE 754 binary64, the [float] of CPython, over the [sin] and [cos] of
    the C library, which return a number between -1 and 1 on a finite
    argument and NaN on NaN, so that CPython raises on an infinite argument
    only.  [0x1.47ae147ae147bp-7] is the double nearest to [0.01];
    [math.radians(a)] is [a * (pi / 180.0)]. *)
Definition binary64_float (sin64 cos64 : float -> float) : PyFloat float := {|
  float_of_int := fun k => SF2Prim (binary_normalize prec emax k 0 false);
  lit_0_01 := 0x1.47ae147ae147bp-7%float;
  fadd := PrimFloat.add;
  fmul := PrimFloat.mul;
  fdiv := PrimFloat.div;
  fneg := PrimFloat.opp;
  fabs := PrimFloat.abs;
  flt := PrimFloat.ltb;
  fbool := fun a => negb (PrimFloat.eqb a 0%float);
  math_radians := fun a => PrimFloat.mul a (PrimFloat.div 0x1.921fb54442d18p+1%float 180%float);
  math_isinf := PrimFloat.is_infinity;
  libm_sin := sin64;
  libm_cos := cos64
|}.

(** The sine and the cosine of the C library at the arguments that the
    examples need, as glibc returns them: the radians of 0, 20 and 90
    degrees.  No other value is used; NaN stands for them. *)
Definition glibc_sin (x : float) : float :=
  if PrimFloat.eqb x 0x1.657184ae74487p-2 then 0x1.5e3a8748a0bf5p-2
  else if PrimFloat.eqb x 0x1.921fb54442d18p+0 then 1
  else if PrimFloat.eqb x 0 then x
  else nan.

Definition glibc_cos (x : float) : float :=
  if PrimFloat.eqb x 0x1.657184ae74487p-2 then 0x1.e11f642522d1cp-1
  else if PrimFloat.eqb x 0x1.921fb54442d18p+0 then 0x1.1a62633145c07p-54
  else if PrimFloat.eqb x 0 then 1
  else nan.

Definition cpython : PyFloat float := binary64_float glibc_sin glibc_cos.

(** ** Geometry *)

Section Geometry.

Context {F : Type} {ops : PyFloat F}.

(** [math.sin(x)] and [math.cos(x)]: on an infinite argument CPython raises
    [ValueError] (math domain error); any other argument, a NaN included,
    goes to the C library. *)
Definition math_sin (x : F) : result F :=
  if math_isinf x then Raise ValueError else Ok (libm_sin x).

Definition math_cos (x : F) : result F :=
  if math_isinf x then Raise ValueError else Ok (libm_cos x).

Record Vector : Type := mkVector { vx : F; vy : F; vz : F }.

(** Modelled from the spec: the [Vector] class of the host is not part of
    the source file; [p1 + dir * ln] is read as the componentwise sum and
    the product of a vector by a number. *)
Definition vadd (p q : Vector) : Vector :=
  mkVector (fadd (vx p) (vx q)) (fadd (vy p) (vy q)) (fadd (vz p) (vz q)).

(** Modelled from the spec: [Vector * float], see [vadd]. *)
Definition vscale (p : Vector) (k : F) : Vector :=
  mkVector (fmul (vx p) k) (fmul (vy p) k) (fmul (vz p) k).

(** [Part.LineSegment(p, q).toShape()]: an edge with its two endpoints. *)
Record Edge : Type := LineSegment { startPoint : Vector; endPoint : Vector }.

Inductive shape : Type :=
| NullShape
| Compound (geoms : list Edge).

Record placement : Type := mkPlacement { Base : Vector; Rotation : F * F * F * F }.

(** The properties of the axis object that [execute] touches.  [Distances],
    [Angles] and [Limit] are [None] when [hasattr] fails; [Length] and
    [Limit] hold the [.Value] of the quantity. *)
Record AxisObject : Type := {
  Distances : option (list F);
  Angles : option (list F);
  Length : F;
  Limit : option F;
  Placement : placement;
  Shape : shape
}.

(** [l[i]] for [i] drawn from a [range]. *)
Definition list_getitem {A : Type} (l : list A) (i : nat) : result A :=
  match nth_error l i with
  | Some a => Ok a
  | None => Raise IndexError
  end.

Definition list_bool {A : Type} (l : list A) : bool :=
  match l with
  | [] => false
  | _ :: _ => true
  end.

(** [a / b] on floats: a zero divisor raises. *)
Definition truediv (a b : F) : result F :=
  if fbool b then Ok (fdiv a b) else Raise ZeroDivisionError.

(** [hasattr(obj,"Limit") and obj.Limit.Value] *)
Definition limit_bool (limit : option F) : bool :=
  match limit with
  | Some l => fbool l
  | None => false
  end.

Definition limit_value (limit : option F) : F :=
  match limit with
  | Some l => l
  | None => float_of_int 0
  end.

Fixpoint for_range {St : Type} (body : St -> nat -> result St)
    (range : list nat) (st : St) : result St :=
  match range with
  | [] => Ok st
  | i :: rest => st' <- body st i ;; for_range body rest st'
  end.

(** The body of the loop of [execute] (lines 112-125); the state is
    [(dist, geoms)]. *)
Definition execute_body (distances angles : list F) (length : F)
    (limit : option F) (st : F * list Edge) (i : nat)
    : result (F * list Edge) :=
  let '(dist, geoms) := st in
  d <- list_getitem distances i ;;
  let dist := fadd dist d in
  a <- list_getitem angles i ;;
  let ang := math_radians a in
  let ln := length in
  ln <- (c <- math_cos ang ;;
         if flt (fabs c) lit_0_01
         then Ok (fmul (float_of_int 100) ln)
         else c <- math_cos ang ;; truediv ln c) ;;
  s <- math_sin ang ;;
  c <- math_cos ang ;;
  let unitvec := mkVector s c (float_of_int 0) in
  let p1 := mkVector dist (float_of_int 0) (float_of_int 0) in
  let p2 := vadd p1 (vscale unitvec ln) in
  if limit_bool limit then
    let p3 := vscale unitvec (limit_value limit) in
    let p4 := vscale unitvec (fneg (limit_value limit)) in
    Ok (dist, (geoms ++ [LineSegment p1 (vadd p1 p3)])
                ++ [LineSegment p2 (vadd p2 p4)])%list
  else
    Ok (dist, (geoms ++ [LineSegment p1 p2])%list).

(** Lines 101-125 of [execute]: the list [geoms]. *)
Definition execute_geoms (distances angles : list F) (length : F)
    (limit : option F) : result (list Edge) :=
  let geoms := [] in
  let dist := float_of_int 0 in
  if (list_bool distances && fbool length)%bool then
    if (list_bool angles
        && (List.length distances =? List.length angles)%nat)%bool then
      st <- for_range (execute_body distances angles length limit)
              (seq 0 (List.length distances)) (dist, geoms) ;;
      Ok (snd st)
    else Ok geoms
  else Ok geoms.

(** Lines 103-108: [[0]] unless the object has the property. *)
Definition distances_of (obj : AxisObject) : list F :=
  match Distances obj with
  | Some l => l
  | None => [float_of_int 0]
  end.

Definition angles_of (obj : AxisObject) : list F :=
  match Angles obj with
  | Some l => l
  | None => [float_of_int 0]
  end.

Definition set_Shape (sh : shape) (obj : AxisObject) : AxisObject :=
  {| Distances := Distances obj; Angles := Angles obj; Length := Length obj;
     Limit := Limit obj; Placement := Placement obj; Shape := sh |}.

Definition set_Placement (pl : placement) (obj : AxisObject) : AxisObject :=
  {| Distances := Distances obj; Angles := Angles obj; Length := Length obj;
     Limit := Limit obj; Placement := pl; Shape := Shape obj |}.

(** [_Axis.execute]: the object after the call and the properties that
    were assigned, in order. *)
Definition execute (obj : AxisObject) : result (AxisObject * list string) :=
  let pl := Placement obj in
  let distances := distances_of obj in
  let angles := angles_of obj in
  geoms <- execute_geoms distances angles (Length obj) (Limit obj) ;;
  if list_bool geoms then
    let sh := Compound geoms in
    let obj := set_Shape sh obj in
    let obj := set_Placement pl obj in
    Ok (obj, ["Shape"; "Placement"])
  else Ok (obj, []).

(** The geometry builder as the specification names it. *)
Definition generate (distances angles : list F) (length limit : F)
    : result (list Edge) :=
  execute_geoms distances angles length (Some limit).

End Geometry.

Arguments Vector F : clear implicits.
Arguments Edge F : clear implicits.
Arguments shape F : clear implicits.
Arguments placement F : clear implicits.
Arguments AxisObject F : clear implicits.

(** ** The closed form of the geometry

    What the specification says [generate] computes for the axis of index
    [i], written without the loop: the running sum of the distances, the
    direction, the effective length and the two end points. *)

Section GeometrySpec.

Context {F : Type} {ops : PyFloat F}.

Definition cumulativeDistance (distances : list F) (i : nat) : F :=
  fold_left fadd (firstn (S i) distances) (float_of_int 0).

Definition direction (angle : F) : Vector F :=
  mkVector (libm_sin (math_radians angle)) (libm_cos (math_radians angle))
    (float_of_int 0).

Definition near_singular (angle : F) : bool :=
  flt (fabs (libm_cos (math_radians angle))) lit_0_01.

Definition effective_length (length angle : F) : F :=
  if near_singular angle
  then fmul (float_of_int 100) length
  else fdiv length (libm_cos (math_radians angle)).

Definition base_point (distances : list F) (i : nat) : Vector F :=
  mkVector (cumulativeDistance distances i) (float_of_int 0) (float_of_int 0).

Definition angle_at (angles : list F) (i : nat) : F :=
  nth i angles (float_of_int 0).

Definition end_point (distances angles : list F) (length : F) (i : nat)
    : Vector F :=
  vadd (base_point distances i)
    (vscale (direction (angle_at angles i))
       (effective_length length (angle_at angles i))).

(** The two stubs of an axis, and its full line. *)
Definition stubs (limit : F) (p1 dir p2 : Vector F) : list (Edge F) :=
  [LineSegment p1 (vadd p1 (vscale dir limit));
   LineSegment p2 (vadd p2 (vscale dir (fneg limit)))].

Definition full_line (p1 p2 : Vector F) : list (Edge F) :=
  [LineSegment p1 p2].

(** The segments of one axis; the test on the limit is the one of the
    source, the truthiness of [Limit]. *)
Definition axis_segments (limit : option F) (p1 dir p2 : Vector F)
    : list (Edge F) :=
  if limit_bool limit then stubs (limit_value limit) p1 dir p2
  else full_line p1 p2.

Definition axis_segments_at (distances angles : list F) (length : F)
    (limit : option F) (i : nat) : list (Edge F) :=
  axis_segments limit (base_point distances i)
    (direction (angle_at angles i)) (end_point distances angles length i).

Definition generate_spec (distances angles : list F) (length limit : F)
    : list (Edge F) :=
  flat_map (axis_segments_at distances angles length (Some limit))
    (seq 0 (List.length distances)).

(** Angles on which [math.sin] and [math.cos] are defined: none of them is
    infinite once converted to radians. *)
Definition no_infinite_angle (angles : list F) : Prop :=
  Forall (fun a => math_isinf (math_radians a) = false) angles.

End GeometrySpec.

(** Vectors of real numbers: difference and scalar product. *)
Definition vsub (p q : Vector R) : Vector R :=
  mkVector (vx p - vx q)%R (vy p - vy q)%R (vz p - vz q)%R.

Definition dot (p q : Vector R) : R :=
  (vx p * vx q + vy p * vy q + vz p * vz q)%R.

(** The difference of two vectors of binary64 numbers. *)
Definition vsub64 (p q : Vector float) : Vector float :=
  mkVector (vx p - vx q)%float (vy p - vy q)%float (vz p - vz q)%float.

(** The direction of an axis of angle 0, along which [Length] is
    measured. *)
Definition baseline : Vector R := mkVector 0%R 1%R 0%R.

(** An axis object that holds the shape of an earlier run and whose
    distances have been emptied since. *)
Definition emptied_axis : AxisObject R := {|
  Distances := Some [];
  Angles := Some [];
  Length := 3000%R;
  Limit := Some 0%R;
  Placement := mkPlacement (mkVector 5%R 5%R 0%R) (0%R, 0%R, 0%R, 1%R);
  Shape := Compound [LineSegment (mkVector 0%R 0%R 0%R)
                       (mkVector 0%R 3000%R 0%R)]
|}.

(** An object whose properties allow the loop of [execute] to run. *)
Definition computable {F : Type} {ops : PyFloat F} (obj : AxisObject F)
    (distances angles : list F) : Prop :=
  Distances obj = Some distances /\ Angles obj = Some angles
  /\ distances <> [] /\ List.length distances = List.length angles
  /\ fbool (Length obj) = true.

(** An axis system of two axes in binary64, the angle of the second being
    infinite. *)
Definition infinite_axis : AxisObject float := {|
  Distances := Some [0%float; 4000%float];
  Angles := Some [0%float; infinity];
  Length := 3000%float;
  Limit := Some 0%float;
  Placement := mkPlacement (mkVector 0%float 0%float 0%float)
                 (0%float, 0%float, 0%float, 1%float);
  Shape := NullShape
|}.

(** An axis system of two axes, 4000 apart, not yet computed. *)
Definition two_axes (limit : R) : AxisObject R := {|
  Distances := Some [0%R; 4000%R];
  Angles := Some [0%R; 90%R];
  Length := 3000%R;
  Limit := Some limit;
  Placement := mkPlacement (mkVector 0%R 0%R 0%R) (0%R, 0%R, 0%R, 1%R);
  Shape := NullShape
|}.

(** A printer and a reader of the two reals 0 and 1, enough to run the
    task panel on an example. *)
Definition toy_str (x : R) : string :=
  if Req_dec_T x 1%R then "1.0" else "0.0".

Definition toy_float (s : string) : option R :=
  if String.eqb s "1.0" then Some 1%R
  else if String.eqb s "0.0" then Some 0%R
  else None.

(** An axis system of three axes as the task panel finds it. *)
Definition panel_axis : AxisObject R := {|
  Distances := Some [1%R; 0%R; 1%R];
  Angles := Some [0%R; 1%R; 0%R];
  Length := 3000%R;
  Limit := Some 0%R;
  Placement := mkPlacement (mkVector 0%R 0%R 0%R) (0%R, 0%R, 0%R, 1%R);
  Shape := NullShape
|}.

(** An axis system of one axis with its shape, as [execute] leaves it. *)
Definition drawn_axis : AxisObject R := {|
  Distances := Some [0%R];
  Angles := Some [0%R];
  Length := 3000%R;
  Limit := Some 0%R;
  Placement := mkPlacement (mkVector 0%R 0%R 0%R) (0%R, 0%R, 0%R, 1%R);
  Shape := Compound [LineSegment (mkVector 0%R 0%R 0%R)
                       (mkVector 0%R 3000%R 0%R)]
|}.

(** ** The Roman numeral of the specification

    The greedy encoding: as long as some symbol of the table is worth no
    more than what is left, write the first such symbol (the table is in
    decreasing order, so it is the largest) and subtract its value. *)

Definition roman_table : list (string * Z) :=
  [("M", 1000); ("CM", 900); ("D", 500); ("CD", 400); ("C", 100);
   ("XC", 90); ("L", 50); ("XL", 40); ("X", 10); ("IX", 9); ("V", 5);
   ("IV", 4); ("I", 1)].

Definition greedy_pick (table : list (string * Z)) (n : Z)
    : option (string * Z) :=
  find (fun e => (snd e <=? n)%Z) table.

Fixpoint greedy (table : list (string * Z)) (steps : nat) (n : Z) : string :=
  match steps with
  | O => ""
  | S steps' =>
      match greedy_pick table n with
      | Some (symbol, value) => symbol ++ greedy table steps' (n - value)
      | None => ""
      end
  end.

(** Tables of positive values, and tables in decreasing order. *)
Definition positive_table (table : list (string * Z)) : Prop :=
  forall symbol value, In (symbol, value) table -> 0 < value.

Definition decreasing (table : list (string * Z)) : Prop :=
  StronglySorted (fun e1 e2 => snd e2 < snd e1) table.

(** Every step takes at least 1 off, so [n] steps are enough. *)
Definition roman_numeral (n : Z) : string :=
  greedy roman_table (Z.to_nat n) n.

(** ** The alphabetic label of the specification *)

Definition alpha_char (uppercase : bool) (k : Z) : string :=
  String (ascii_of_nat (Z.to_nat ((if uppercase then 65 else 97) + k))) "".

Definition alpha_label (uppercase : bool) (n : Z) : string :=
  (if (n / 26 =? 0)%Z then "" else alpha_char uppercase (n / 26))
  ++ alpha_char uppercase (n mod 26).

(** ** The rest of the axis object and of its view provider

    [_Axis.getPoints] and [_Axis.getAxisData] (lines 144-166), and of
    [_ViewProviderAxis] the coordinates of [updateData] (lines 268-282), the
    end points of the bubbles (lines 339-372), their numbering (lines
    477-491) and the labels (lines 492-539) of [onChanged]. *)

Inductive exception : Set :=
| Builtin (e : exn)
| TypeError
| AttributeError
| UnboundLocalError.

(** What a call does: it finishes with a value, raises, or runs out of the
    fuel given to [getNumber]. *)
Inductive exec (A : Type) : Type :=
| Finished (a : A)
| Raised (e : exception)
| Exhausted.

Arguments Finished {A} a.
Arguments Raised {A} e.
Arguments Exhausted {A}.

Definition exec_bind {A B : Type} (r : exec A) (k : A -> exec B) : exec B :=
  match r with
  | Finished a => k a
  | Raised e => Raised e
  | Exhausted => Exhausted
  end.

Notation "x <~ r ;; k" := (exec_bind r (fun x => k))
  (at level 61, r at next level, right associativity).

Definition lift {A : Type} (r : result A) : exec A :=
  match r with
  | Ok a => Finished a
  | Raise e => Raised (Builtin e)
  end.

(** [for a in l: st = body(st, a)] *)
Fixpoint exec_for {A St : Type} (body : St -> A -> exec St) (l : list A)
    (st : St) : exec St :=
  match l with
  | [] => Finished st
  | a :: rest => st' <~ body st a ;; exec_for body rest st'
  end.

(** [self.getNumber(vobj, num)] as a value: a string or [None]. *)
Definition call_getNumber (fuel : nat) (vobj : ViewObject) (num : Z)
    : exec (option string) :=
  match getNumber fuel vobj num with
  | Returns s => Finished (Some s)
  | ReturnsNone => Finished None
  | Raises e => Raised (Builtin e)
  | OutOfFuel => Exhausted
  end.

(** [l[i]] for any integer [i]: a negative index counts from the end. *)
Definition list_index {A : Type} (l : list A) (i : Z) : result A :=
  let len := Z.of_nat (List.length l) in
  let j := if (i <? 0)%Z then i + len else i in
  if ((0 <=? j)%Z && (j <? len)%Z)%bool then
    match nth_error l (Z.to_nat j) with
    | Some a => Ok a
    | None => Raise IndexError
    end
  else Raise IndexError.

(** [s.endswith(suffix)] *)
Definition endswith (s suffix : string) : bool :=
  ((String.length suffix <=? String.length s)%nat
   && String.eqb
        (substring (String.length s - String.length suffix)
           (String.length suffix) s)
        suffix)%bool.

(** [x in l] for strings. *)
Definition str_in (x : string) (l : list string) : bool :=
  existsb (String.eqb x) l.

(** A number that is an [int] or a [float]. *)
Inductive pynumber (F : Type) : Type :=
| PyInt (k : Z)
| PyReal (x : F).

Arguments PyInt {F} k.
Arguments PyReal {F} x.

(** [range(n)]: a float is refused. *)
Definition range {F : Type} (n : pynumber F) : exec (list nat) :=
  match n with
  | PyInt k => Finished (seq 0%nat (Z.to_nat k))
  | PyReal _ => Raised TypeError
  end.

Section ViewProvider.

Context {F : Type} {ops : PyFloat F}.

(** [obj.Placement.inverse().multVec(p)], a function of the host. *)
Variable inverse_multVec : placement F -> Vector F -> Vector F.

(** Modelled from the spec: the shapes of the host are not part of the
    source file.  The edges of a compound of line segments are these
    segments, in order, and the null shape has none. *)
Definition Edges (sh : shape F) : list (Edge F) :=
  match sh with
  | NullShape => []
  | Compound geoms => geoms
  end.

(** Modelled from the spec: the points of the vertexes of a segment are
    its two end points, first the start. *)
Definition Vertexes (e : Edge F) : list (Vector F) :=
  [startPoint e; endPoint e].

(** [_Axis.getPoints] *)
Definition getPoints (obj : AxisObject F) : exec (list (Vector F)) :=
  let pts := [] in
  exec_for
    (fun pts e =>
       p <~ lift (list_index (Vertexes e) 0) ;; Finished (pts ++ [p])%list)
    (Edges (Shape obj)) pts.

(** [_Axis.getAxisData]; [viewObject] is [obj.ViewObject], [None] without
    a user interface.  The state of the loop is [(data, num)]. *)
Definition getAxisData (fuel : nat) (viewObject : option ViewObject)
    (obj : AxisObject F)
    : exec (list (Vector F * Vector F * option string)) :=
  let data := [] in
  let num := 0%Z in
  st <~ exec_for
          (fun (st : list (Vector F * Vector F * option string) * Z) e =>
             let '(data, num) := st in
             first <~ lift (list_index (Vertexes e) 0) ;;
             last <~ lift (list_index (Vertexes e) (-1)) ;;
             number <~ match viewObject with
                       | Some vobj => call_getNumber fuel vobj num
                       | None => Finished (Some (str num))
                       end ;;
             Finished ((data ++ [(first, last, number)])%list, (num + 1)%Z))
          (Edges (Shape obj)) (data, num) ;;
  Finished (fst st).

(** The [Shape] branch of [updateData]: the points and the index list
    handed to the line set, [None] when the shape has no edge and nothing
    is handed over.  The state of the loops is [(verts, vset, i)]. *)
Definition updateData_Shape (obj : AxisObject F)
    : option (list (Vector F) * list Z) :=
  match Edges (Shape obj) with
  | [] => None
  | _ :: _ =>
      let '(verts, vset, i) :=
        fold_left
          (fun (st : list (Vector F) * list Z * Z) e =>
             let '(verts, vset, i) :=
               fold_left
                 (fun (st : list (Vector F) * list Z * Z) v =>
                    let '(verts, vset, i) := st in
                    ((verts ++ [inverse_multVec (Placement obj) v])%list,
                     (vset ++ [i])%list, (i + 1)%Z))
                 (Vertexes e) st in
             (verts, (vset ++ [(-1)%Z])%list, i))
          (Edges (Shape obj)) ([], [], 0%Z) in
      Some (verts, vset)
  end.

(** Lines 339-346: the ends that get a bubble. *)
Definition bubble_positions (bubblePosition : option string) : list string :=
  match bubblePosition with
  | Some bp =>
      if str_in bp ["Both"; "Arrow left"; "Arrow right"; "Bar left";
                    "Bar right"]
      then ["Start"; "End"]
      else if String.eqb bp "None" then []
      else [bp]
  | None => ["Start"]
  end.

(** Lines 353-372, for the axis [i] and the end [p]: the two end points
    [(p1, p2)] between which the bubble is set, and the [arrow] flag. *)
Definition bubble_ends (bubblePosition : option string)
    (obj : AxisObject F) (i : nat) (p : string)
    : exec (Vector F * Vector F * option bool) :=
  verts <~ (if limit_bool (Limit obj) then
              e0 <~ lift (list_getitem (Edges (Shape obj)) (i * 2)) ;;
              v0 <~ lift (list_index (Vertexes e0) 0) ;;
              e1 <~ lift (list_getitem (Edges (Shape obj)) (i * 2 + 1)) ;;
              v1 <~ lift (list_index (Vertexes e1) 0) ;;
              Finished [inverse_multVec (Placement obj) v0;
                        inverse_multVec (Placement obj) v1]
            else
              e <~ lift (list_getitem (Edges (Shape obj)) i) ;;
              Finished (map (inverse_multVec (Placement obj)) (Vertexes e))) ;;
  let arrow := None in
  if String.eqb p "Start" then
    p1 <~ lift (list_index verts 0) ;;
    p2 <~ lift (list_index verts 1) ;;
    match bubblePosition with
    | None => Raised AttributeError
    | Some bp =>
        let arrow :=
          if endswith bp "left" then Some true
          else if endswith bp "right" then Some false
          else arrow in
        Finished (p1, p2, arrow)
    end
  else
    p1 <~ lift (list_index verts 1) ;;
    p2 <~ lift (list_index verts 0) ;;
    match bubblePosition with
    | None => Raised AttributeError
    | Some bp =>
        let arrow :=
          if endswith bp "left" then Some false
          else if endswith bp "right" then Some true
          else arrow in
        Finished (p1, p2, arrow)
    end.

(** Lines 339-357 and the two loops around [bubble_ends]: the end points
    and the arrow flag of every bubble, in the order in which [bubbletexts]
    is filled, the drawing of the bubbles (lines 373-472) left aside; see
    [bubble_loop] for the loop with it.  The quantity [Limit] is taken to be
    truthy when its value is. *)
Definition bubble_list (bubblePosition : option string) (obj : AxisObject F)
    : exec (list (Vector F * Vector F * option bool)) :=
  let pos := bubble_positions bubblePosition in
  let e := List.length (Edges (Shape obj)) in
  let e := if limit_bool (Limit obj) then (e / 2)%nat else e in
  let n := match Distances obj with
           | Some l => List.length l
           | None => 0%nat
           end in
  exec_for
    (fun bubbles i =>
       exec_for
         (fun bubbles p =>
            b <~ bubble_ends bubblePosition obj i p ;;
            Finished (bubbles ++ [b])%list)
         pos bubbles)
    (seq 0%nat (Nat.min e n)) [].

(** Lines 373-472, for one bubble set from [p1] towards [p2]: its circle
    or its arrow and its text node are built by calls of the host
    ([normalize], [Part.makeCircle], [Part.makePolygon], the scene graph),
    any of which may raise. *)
Variable draw_bubble : Vector F -> Vector F -> option bool -> exec unit.

(** The loop of lines 351-472: for every axis and for every end of it the
    end points are picked (lines 353-372) and the bubble is drawn (lines
    373-472) before the next one is looked at.  The result lists the
    bubbles drawn. *)
Definition bubble_loop (bubblePosition : option string) (obj : AxisObject F)
    : exec (list (Vector F * Vector F * option bool)) :=
  let pos := bubble_positions bubblePosition in
  let e := List.length (Edges (Shape obj)) in
  let e := if limit_bool (Limit obj) then (e / 2)%nat else e in
  let n := match Distances obj with
           | Some l => List.length l
           | None => 0%nat
           end in
  exec_for
    (fun bubbles i =>
       exec_for
         (fun bubbles p =>
            b <~ bubble_ends bubblePosition obj i p ;;
            _ <~ draw_bubble (fst (fst b)) (snd (fst b)) (snd b) ;;
            Finished (bubbles ++ [b])%list)
         pos bubbles)
    (seq 0%nat (Nat.min e n)) [].

(** Lines 485-491, one turn of the numbering loop; the state is
    [(strings, num, alt)]. *)
Definition number_step {T : Type} (fuel : nat) (vobj : ViewObject)
    (bubblePosition : option string) (st : list (option string) * Z * bool)
    (t : T) : exec (list (option string) * Z * bool) :=
  let '(strings, num, alt) := st in
  s <~ call_getNumber fuel vobj num ;;
  let num := (num + 1)%Z in
  let num :=
    match bubblePosition with
    | Some bp =>
        if str_in bp ["Both"; "Arrow left"; "Arrow right"; "Bar left";
                      "Bar right"]
        then if negb alt then (num - 1)%Z else num
        else num
    | None => num
    end in
  let alt := negb alt in
  Finished ((strings ++ [s])%list, num, alt).

(** Lines 477-491, the numbering of the bubbles: the strings given to the
    texts of [bubbletexts], of which only the number matters. *)
Definition number_bubbles {T : Type} (fuel : nat) (vobj : ViewObject)
    (bubblePosition : option string) (bubbletexts : list T)
    : exec (list (option string)) :=
  let num := 0%Z in
  let num :=
    match StartNumber vobj with
    | Some start => if (start >? 1)%Z then (start - 1)%Z else num
    | None => num
    end in
  let alt := false in
  st <~ exec_for (number_step fuel vobj bubblePosition) bubbletexts
          ([], num, alt) ;;
  Finished (fst (fst st)).

(** Lines 492-539, the labels: [None] when no label set is built, else
    for every label node its text, its translation and its rotation.
    [showLabel] is [vobj.ShowLabel], [labels] is [vobj.Object.Labels] and
    [labelOffset] is [vobj.LabelOffset], each [None] when [hasattr]
    fails. *)
Definition label_nodes (showLabel : option bool)
    (labels : option (list string)) (labelOffset : option (placement F))
    (obj : AxisObject F)
    : exec (option (list (string * Vector F * (F * F * F * F)))) :=
  match showLabel, labels with
  | Some true, Some labels =>
      let n :=
        if limit_bool (Limit obj)
        then PyReal (fdiv (float_of_int (Z.of_nat (List.length (Edges (Shape obj)))))
                       (float_of_int 2))
        else PyInt (Z.of_nat (List.length (Edges (Shape obj)))) in
      indices <~ range n ;;
      nodes <~ exec_for
                 (fun nodes i =>
                    if (i <? List.length labels)%nat then
                      t <~ lift (list_getitem labels i) ;;
                      match t with
                      | EmptyString => Finished nodes
                      | String _ _ =>
                          e <~ lift (list_getitem (Edges (Shape obj)) i) ;;
                          vert <~ lift (list_index (Vertexes e) 0) ;;
                          match labelOffset with
                          | Some offset =>
                              let pl :=
                                mkPlacement (vadd vert (Base offset))
                                  (Rotation offset) in
                              Finished
                                (nodes ++ [(t, Base pl, Rotation pl)])%list
                          | None => Raised UnboundLocalError
                          end
                      end
                    else Finished nodes)
                 indices [] ;;
      Finished (Some nodes)
  | _, _ => Finished None
  end.

End ViewProvider.

(** The node of a label at the start of an edge, none for an empty
    label. *)
Definition label_node {F : Type} {ops : PyFloat F} (offset : placement F)
    (el : Edge F * string) : list (string * Vector F * (F * F * F * F)) :=
  match snd el with
  | EmptyString => []
  | String _ _ =>
      [(snd el, vadd (startPoint (fst el)) (Base offset), Rotation offset)]
  end.

(** ** The task panel: [_AxisTaskPanel] (lines 650-774)

    The tree widget is the list of its top-level items, an item the texts
    of its four columns (axis number, distance, angle, label); a column
    never set has the empty text.  [float(s)], [str(x)] on a float and
    [int(s)] belong to Python and stay parameters: [float_of_str] and
    [int_of_str] are [None] where Python raises [ValueError]. *)

Record TreeItem : Set := {
  text0 : string;
  text1 : string;
  text2 : string;
  text3 : string
}.

(** [tree.findItems(text, MatchExactly, 0)]: the items whose first column
    is [text]. *)
Definition findItems (tree : list TreeItem) (text : string)
    : list TreeItem :=
  filter (fun it => String.eqb (text0 it) text) tree.

Section TaskPanel.

Context {F : Type} {ops : PyFloat F}.

Variable float_of_str : string -> option F.
Variable str_of_float : F -> string.
Variable int_of_str : string -> option Z.

(** [float(cell) if cell else 0.0] *)
Definition cell_value (cell : string) : exec F :=
  match cell with
  | EmptyString => Finished (float_of_int 0)
  | String _ _ =>
      match float_of_str cell with
      | Some x => Finished x
      | None => Raised (Builtin ValueError)
      end
  end.

(** One turn of the loop of [resetObject]; the state is [(d, a, l)]. *)
Definition resetObject_step (tree : list TreeItem) (remove : option Z)
    (st : list F * list F * list string) (i : nat)
    : exec (list F * list F * list string) :=
  let '(d, a, l) := st in
  it <~ lift (list_index (findItems tree (str (Z.of_nat i + 1))) 0) ;;
  if match remove with
     | None => true
     | Some r => negb (r =? Z.of_nat i)%Z
     end
  then
    x <~ cell_value (text1 it) ;;
    let d := (d ++ [x])%list in
    y <~ cell_value (text2 it) ;;
    let a := (a ++ [y])%list in
    let l := (l ++ [text3 it])%list in
    Finished (d, a, l)
  else Finished (d, a, l).

(** [resetObject]: the values given to [Distances], [Angles] and
    [Labels]. *)
Definition resetObject (tree : list TreeItem) (remove : option Z)
    : exec (list F * list F * list string) :=
  exec_for (resetObject_step tree remove) (seq 0%nat (List.length tree))
    ([], [], []).

(** [update]: the items that fill the tree; [obj] is [self.obj] and
    [labels] is [self.obj.Labels], [None] when [hasattr] fails. *)
Definition update (obj : option (AxisObject F))
    (labels : option (list string)) : exec (list TreeItem) :=
  match obj with
  | Some obj =>
      match Distances obj with
      | Some distances =>
          exec_for
            (fun tree i =>
               let cell1 :=
                 if (i <? List.length distances)%nat
                 then str_of_float (nth i distances (float_of_int 0))
                 else "" in
               cell2 <~ match Angles obj with
                        | Some angles =>
                            Finished
                              (if (i <? List.length angles)%nat
                               then str_of_float (nth i angles (float_of_int 0))
                               else "")
                        | None => Raised AttributeError
                        end ;;
               let cell3 :=
                 match labels with
                 | Some labels =>
                     if (i <? List.length labels)%nat
                     then nth i labels "" else ""
                 | None => ""
                 end in
               Finished
                 (tree ++ [{| text0 := str (Z.of_nat i + 1);
                              text1 := cell1; text2 := cell2;
                              text3 := cell3 |}])%list)
            (seq 0%nat (List.length distances)) []
      | None => Finished []
      end
  | None => Finished []
  end.

(** The item that [update] makes for the index [i]. *)
Definition panel_row (distances angles : list F) (labels : list string)
    (i : nat) : TreeItem :=
  {| text0 := str (Z.of_nat i + 1);
     text1 := if (i <? List.length distances)%nat
              then str_of_float (nth i distances (float_of_int 0)) else "";
     text2 := if (i <? List.length angles)%nat
              then str_of_float (nth i angles (float_of_int 0)) else "";
     text3 := if (i <? List.length labels)%nat then nth i labels "" else "" |}.

(** [removeElement]: [None] when the tree has no current item, else what
    [resetObject] writes without the row named by the current item. *)
Definition removeElement (tree : list TreeItem) (current : option TreeItem)
    : exec (option (list F * list F * list string)) :=
  match current with
  | Some it =>
      match int_of_str (text0 it) with
      | Some k =>
          let nr := (k - 1)%Z in
          lists <~ resetObject tree (Some nr) ;;
          Finished (Some lists)
      | None => Raised (Builtin ValueError)
      end
  | None => Finished None
  end.

(** [addElement]: the tree with its new last item, and what
    [resetObject] writes. *)
Definition addElement (tree : list TreeItem)
    : list TreeItem * exec (list F * list F * list string) :=
  let tree :=
    (tree ++ [{| text0 := str (Z.of_nat (List.length tree + 1));
                 text1 := "1.0"; text2 := "0.0"; text3 := "" |}])%list in
  (tree, resetObject tree None).

End TaskPanel.

(** The index [i] is kept by [resetObject]. *)
Definition kept (remove : option Z) (i : nat) : bool :=
  match remove with
  | None => true
  | Some r => negb (r =? Z.of_nat i)%Z
  end.

(** A list cut or filled up to [n] entries, and a list without its entry
    of index [r]. *)
Definition fitted {A : Type} (n : nat) (default : A) (l : list A) : list A :=
  map (fun i => nth i l default) (seq 0%nat n).

Definition without {A : Type} (r : nat) (l : list A) : list A :=
  (firstn r l ++ skipn (S r) l)%list.

(** Whether an axis has a bubble at both ends. *)
Definition both_ends (bubblePosition : option string) : bool :=
  match bubblePosition with
  | Some bp =>
      str_in bp ["Both"; "Arrow left"; "Arrow right"; "Bar left"; "Bar right"]
  | None => false
  end.

(** The entry of a bubble at the end [p] of an axis from [a] to [b]: at
    "Start" the bubble is set from [a] towards [b], at any other end from
    [b] towards [a], and the arrow flag follows the side named by the
    position. *)
Definition bubble_entry {F : Type} (bp p : string) (a b : Vector F)
    : Vector F * Vector F * option bool :=
  if String.eqb p "Start" then
    (a, b,
     if endswith bp "left" then Some true
     else if endswith bp "right" then Some false
     else None)
  else
    (b, a,
     if endswith bp "left" then Some false
     else if endswith bp "right" then Some true
     else None).

(** The calls of [f] on the elements of a list, in order, with their
    results: what a loop that appends one result per turn amounts to. *)
Fixpoint exec_map {A B : Type} (f : A -> exec B) (l : list A)
    : exec (list B) :=
  match l with
  | [] => Finished []
  | a :: rest => b <~ f a ;; bs <~ exec_map f rest ;; Finished (b :: bs)
  end.

(** The number that [getAxisData] gives to the edge of index [k]. *)
Definition edge_number (fuel : nat) (viewObject : option ViewObject) (k : nat)
    : exec (option string) :=
  match viewObject with
  | Some vobj => call_getNumber fuel vobj (Z.of_nat k)
  | None => Finished (Some (str (Z.of_nat k)))
  end.

(** The index of the first bubble: [StartNumber - 1] when [StartNumber] is
    above 1, else 0. *)
Definition first_number (vobj : ViewObject) : Z :=
  match StartNumber vobj with
  | Some start => if (start >? 1)%Z then (start - 1)%Z else 0%Z
  | None => 0%Z
  end.

(** ** Reading a label back

    How a reader takes a label: a decimal numeral as the integer it
    writes, a Roman numeral by adding the values of its letters, a letter
    standing before a larger one being subtracted. *)

Definition decimal_value (s : string) : option Z :=
  option_map Z.of_int (NilZero.int_of_string s).

Definition numeral_value (c : ascii) : Z :=
  if Ascii.eqb c "I" then 1
  else if Ascii.eqb c "V" then 5
  else if Ascii.eqb c "X" then 10
  else if Ascii.eqb c "L" then 50
  else if Ascii.eqb c "C" then 100
  else if Ascii.eqb c "D" then 500
  else if Ascii.eqb c "M" then 1000
  else 0.

Fixpoint roman_value (s : string) : Z :=
  match s with
  | EmptyString => 0
  | String c rest =>
      match rest with
      | EmptyString => numeral_value c
      | String c' _ =>
          if (numeral_value c <? numeral_value c')%Z
          then roman_value rest - numeral_value c
          else numeral_value c + roman_value rest
      end
  end.

(** The indices a style can label: any index from 0 on, below 676 for
    the two alphabetic styles. *)
Definition alphabetic (style : LabelStyle) : bool :=
  match style with
  | UpperAlpha | LowerAlpha => true
  | _ => false
  end.

Definition labelled (style : LabelStyle) (index : Z) : Prop :=
  0 <= index /\ (alphabetic style = true -> index < 676).

(** [k] zeros written in front of a decimal numeral, as [zfill] pads. *)
Fixpoint leading_zeros (k : nat) (d : Decimal.uint) : Decimal.uint :=
  match k with
  | O => d
  | S k' => Decimal.D0 (leading_zeros k' d)
  end.

(** * Proofs: the numbering scheme *)

Lemma string_app_assoc (a b c : string) : (a ++ b) ++ c = a ++ (b ++ c).
Proof.
  induction a as [|ch a IH]; simpl; [reflexivity | now rewrite IH].
Qed.

Lemma string_app_nil_r (a : string) : a ++ "" = a.
Proof.
  induction a as [|ch a IH]; simpl; [reflexivity | now rewrite IH].
Qed.

(** [lia] with quotients and remainders by a literal. *)
Ltac div_lia := Z.div_mod_to_equations; lia.

(** *** Letters *)

Lemma small_index (k : Z) :
  0 <= k < 26 -> exists m : nat, k = Z.of_nat m /\ (m < 26)%nat.
Proof.
  intros Hk. exists (Z.to_nat k). lia.
Qed.

Lemma getitem_chars (k : Z) :
  0 <= k < 26 -> getitem chars k = Ok (alpha_char false k).
Proof.
  intros Hk. destruct (small_index k Hk) as (m & -> & Hm).
  do 26 (destruct m as [|m]; [reflexivity|]). lia.
Qed.

Lemma upper_alpha_char (k : Z) :
  0 <= k < 26 -> upper (alpha_char false k) = alpha_char true k.
Proof.
  intros Hk. destruct (small_index k Hk) as (m & -> & Hm).
  do 26 (destruct m as [|m]; [reflexivity|]). lia.
Qed.

Lemma getitem_chars_overflow (k : Z) :
  26 <= k -> getitem chars k = Raise IndexError.
Proof.
  intros Hk. unfold getitem.
  change (Z.of_nat (String.length chars)) with 26.
  destruct (k <? 0)%Z eqn:E; [lia|].
  destruct (k <? 26)%Z eqn:E'; [lia|].
  now rewrite andb_false_r.
Qed.

Lemma getNumber_lower (fuel : nat) (vobj : ViewObject) (num : Z) :
  plain vobj "a,b,c" -> 0 <= num < 676 ->
  getNumber fuel vobj num = Returns (alpha_label false num).
Proof.
  intros [Hc Hs] Hn. unfold getNumber, alpha_label. rewrite Hs.
  assert (H26 : 0 <= num / 26 < 26) by div_lia.
  assert (Hr : 0 <= num mod 26 < 26) by div_lia.
  destruct Hc as [-> | ->]; cbn [String.eqb Ascii.eqb Bool.eqb outcome_of bind];
    cbv zeta;
    (destruct (num / 26 =? 0)%Z eqn:E; cbn [negb bind];
     [ rewrite (getitem_chars _ Hr); reflexivity
     | rewrite (getitem_chars _ H26); cbn [bind];
       rewrite (getitem_chars _ Hr); reflexivity ]).
Qed.

Lemma getNumber_upper (fuel : nat) (vobj : ViewObject) (num : Z) :
  plain vobj "A,B,C" -> 0 <= num < 676 ->
  getNumber fuel vobj num = Returns (alpha_label true num).
Proof.
  intros [Hc Hs] Hn. unfold getNumber, alpha_label. rewrite Hs.
  assert (H26 : 0 <= num / 26 < 26) by div_lia.
  assert (Hr : 0 <= num mod 26 < 26) by div_lia.
  destruct Hc as [-> | ->]; cbn [String.eqb Ascii.eqb Bool.eqb outcome_of bind];
    cbv zeta;
    (destruct (num / 26 =? 0)%Z eqn:E; cbn [negb bind];
     [ rewrite (getitem_chars _ Hr); cbn [bind];
       rewrite (upper_alpha_char _ Hr); reflexivity
     | rewrite (getitem_chars _ H26); cbn [bind];
       rewrite (getitem_chars _ Hr); cbn [bind];
       rewrite (upper_alpha_char _ Hr), (upper_alpha_char _ H26); reflexivity ]).
Qed.

Lemma getNumber_alpha_overflow (fuel : nat) (vobj : ViewObject) (num : Z) :
  plain vobj "a,b,c" \/ plain vobj "A,B,C" -> 676 <= num ->
  getNumber fuel vobj num = Raises IndexError.
Proof.
  intros Hp Hn. unfold getNumber.
  assert (H26 : 26 <= num / 26) by div_lia.
  assert (E : (num / 26 =? 0)%Z = false) by (apply Z.eqb_neq; div_lia).
  destruct Hp as [[Hc Hs] | [Hc Hs]]; rewrite Hs;
    destruct Hc as [-> | ->];
    cbn [String.eqb Ascii.eqb Bool.eqb outcome_of bind]; cbv zeta;
    rewrite E; cbn [negb]; rewrite (getitem_chars_overflow _ H26); reflexivity.
Qed.

(** *** Roman numerals *)

Section Greedy.

Variable table : list (string * Z).

Hypothesis table_positive : positive_table table.

Lemma greedy_pick_sound (n : Z) (symbol : string) (value : Z) :
  greedy_pick table n = Some (symbol, value) -> 0 < value <= n.
Proof.
  unfold greedy_pick. intros Hf. apply find_some in Hf as [Hin Hle].
  apply table_positive in Hin. simpl in Hle. lia.
Qed.

Lemma greedy_pick_none (n : Z) : n <= 0 -> greedy_pick table n = None.
Proof.
  intros Hn. destruct (greedy_pick table n) as [[symbol value]|] eqn:E;
    [|reflexivity].
  apply greedy_pick_sound in E; lia.
Qed.

(** More steps than [n] change nothing. *)
Lemma greedy_steps (s1 : nat) :
  forall (n : Z) (s2 : nat),
    (Z.to_nat n <= s1)%nat -> (Z.to_nat n <= s2)%nat ->
    greedy table s1 n = greedy table s2 n.
Proof.
  induction s1 as [|s1 IH]; intros n s2 H1 H2.
  - destruct s2 as [|s2]; simpl; [reflexivity|].
    rewrite greedy_pick_none by lia. reflexivity.
  - destruct s2 as [|s2]; simpl.
    + rewrite greedy_pick_none by lia. reflexivity.
    + destruct (greedy_pick table n) as [[symbol value]|] eqn:E;
        [|reflexivity].
      apply greedy_pick_sound in E. f_equal. apply IH; lia.
Qed.

End Greedy.

Lemma greedy_pick_skip (pre suf : list (string * Z)) (n : Z) :
  (forall symbol value, In (symbol, value) pre -> n < value) ->
  greedy_pick (pre ++ suf) n = greedy_pick suf n.
Proof.
  unfold greedy_pick. induction pre as [|[symbol value] pre IH]; intros Hpre;
    simpl; [reflexivity|].
  assert (n < value) by (apply (Hpre symbol); now left).
  destruct (value <=? n)%Z eqn:E; [lia|].
  apply IH. intros s v Hin. apply (Hpre s). now right.
Qed.

(** The [while] loop of one symbol, once the symbols before it are all
    worth more than [n]: it ends, with less than [integer] left, and has
    written what the greedy encoding writes. *)
Lemma roman_while_greedy (pre suf : list (string * Z)) (numeral : string)
    (integer : Z) :
  positive_table (pre ++ (numeral, integer) :: suf) ->
  forall (fuel : nat) (result : string) (n : Z) (steps : nat),
    (forall symbol value, In (symbol, value) pre -> n < value) ->
    (Z.to_nat n <= fuel)%nat -> (Z.to_nat n <= steps)%nat ->
    exists result' n',
      roman_while fuel numeral integer result n = Some (result', n')
      /\ n' < integer /\ n' <= n
      /\ result ++ greedy (pre ++ (numeral, integer) :: suf) steps n
         = result' ++ greedy (pre ++ (numeral, integer) :: suf) (Z.to_nat n') n'.
Proof.
  intros Hpos.
  assert (Hint : 0 < integer).
  { apply (Hpos numeral). apply in_or_app. right. now left. }
  induction fuel as [|fuel IH]; intros result n steps Hpre Hfuel Hsteps.
  - simpl. destruct (n >=? integer)%Z eqn:E; [lia|].
    exists result, n. repeat split; try lia.
    f_equal. apply greedy_steps; [exact Hpos | lia | lia].
  - simpl. destruct (n >=? integer)%Z eqn:E.
    + destruct steps as [|steps]; [lia|].
      destruct (IH (result ++ numeral) (n - integer) steps)
        as (result' & n' & Hrun & Hlt & Hle & Hout); try lia.
      { intros s v Hin. apply Hpre in Hin. lia. }
      exists result', n'. repeat split; try lia; [exact Hrun|].
      rewrite <- Hout. simpl.
      rewrite (greedy_pick_skip _ _ _ Hpre). unfold greedy_pick. simpl.
      destruct (integer <=? n)%Z eqn:E'; [|lia].
      now rewrite string_app_assoc.
    + exists result, n. repeat split; try lia.
      f_equal. apply greedy_steps; [exact Hpos | lia | lia].
Qed.

(** The [for] loop over the rest of the table. *)
Lemma roman_for_greedy (suf : list (string * Z)) :
  forall (pre : list (string * Z)),
    positive_table (pre ++ suf) ->
    forall (fuel : nat) (result : string) (n : Z),
      (forall symbol value, In (symbol, value) pre -> n < value) ->
      (Z.to_nat n <= fuel)%nat ->
      exists n',
        roman_for fuel suf result n
        = Some (result ++ greedy (pre ++ suf) (Z.to_nat n) n, n').
Proof.
  induction suf as [|[numeral integer] suf IH];
    intros pre Hpos fuel result n Hpre Hfuel.
  - exists n. simpl. do 2 f_equal.
    destruct (Z.to_nat n) as [|k]; simpl.
    + now rewrite string_app_nil_r.
    + rewrite (greedy_pick_skip _ _ _ Hpre). simpl.
      now rewrite string_app_nil_r.
  - destruct (roman_while_greedy pre suf numeral integer Hpos fuel result n (Z.to_nat n)
                Hpre Hfuel (Nat.le_refl _))
      as (result' & n' & Hrun & Hlt & Hle & Hout).
    simpl. rewrite Hrun.
    assert (Happ : ((pre ++ [(numeral, integer)]) ++ suf
                    = pre ++ (numeral, integer) :: suf)%list)
      by (now rewrite <- app_assoc).
    destruct (IH (pre ++ [(numeral, integer)])%list) with
      (fuel := fuel) (result := result') (n := n') as (n'' & Hfor).
    + now rewrite Happ.
    + intros s v Hin. apply in_app_or in Hin as [Hin | [Heq | []]].
      * apply Hpre in Hin. lia.
      * inversion Heq; subst. lia.
    + lia.
    + exists n''. rewrite Hfor, Happ, Hout. reflexivity.
Qed.

Lemma roman_table_positive : positive_table roman_table.
Proof.
  intros symbol value Hin. simpl in Hin.
  repeat (destruct Hin as [Heq | Hin]; [inversion Heq; lia|]).
  destruct Hin.
Qed.

Lemma roman_table_decreasing : decreasing roman_table.
Proof.
  unfold decreasing, roman_table. repeat constructor.
Qed.

(** In a decreasing table the first symbol that fits is the largest. *)
Lemma greedy_pick_largest (table : list (string * Z)) (n : Z)
    (symbol : string) (value : Z) :
  decreasing table ->
  greedy_pick table n = Some (symbol, value) ->
  forall symbol' value',
    In (symbol', value') table -> value' <= n -> value' <= value.
Proof.
  unfold decreasing, greedy_pick.
  induction table as [|[s0 v0] table IH]; intros Hdec Hpick s' v' Hin Hle;
    [destruct Hin|].
  apply StronglySorted_inv in Hdec as [Hdec Hall].
  simpl in Hpick. destruct (v0 <=? n)%Z eqn:E.
  - inversion Hpick; subst. destruct Hin as [Heq | Hin].
    + inversion Heq. lia.
    + rewrite Forall_forall in Hall. apply Hall in Hin. simpl in Hin. lia.
  - destruct Hin as [Heq | Hin].
    + inversion Heq; subst. lia.
    + now apply (IH Hdec Hpick s' v').
Qed.

(** The table of the source is the table of the specification. *)
Lemma roman_is_roman_table : roman = roman_table.
Proof. reflexivity. Qed.

Lemma getNumber_roman (fuel : nat) (vobj : ViewObject) (num : Z) :
  plain vobj "I,II,III" -> (Z.to_nat (num + 1) <= fuel)%nat ->
  getNumber fuel vobj num = Returns (roman_numeral (num + 1)).
Proof.
  intros [Hc Hs] Hfuel. unfold getNumber. rewrite Hs.
  destruct (roman_for_greedy roman_table [] roman_table_positive fuel ""
              (num + 1)) as (n' & Hfor); [intros s v []|exact Hfuel|].
  destruct Hc as [-> | ->]; cbn [String.eqb Ascii.eqb Bool.eqb]; cbv zeta;
    rewrite roman_is_roman_table, Hfor; reflexivity.
Qed.

Lemma getNumber_custom (fuel : nat) (vobj : ViewObject) (num : Z)
    (custom : string) :
  CustomNumber vobj = Some custom -> custom <> "" ->
  getNumber fuel vobj num = Returns custom.
Proof.
  intros Hc Hne. unfold getNumber. rewrite Hc.
  destruct custom as [|c rest]; [now elim Hne | reflexivity].
Qed.

Lemma label_plain (index : Z) (style : LabelStyle) (startNumber : Z) :
  plain {| CustomNumber := Some "";
           NumberingStyle := Some (style_name style);
           StartNumber := Some startNumber |} (style_name style).
Proof. split; [now right | reflexivity]. Qed.

(** *** The claims on the labeler *)

(** C6, as stated, fails: index 25 has quotient 0 by 26, so the first letter
    is left out and the lower-case label of 25 is "z", not "az". *)
Lemma label_25_is_not_az :
  label 0 25 LowerAlpha 1 "" = Returns "z" /\ Returns "z" <> Returns "az".
Proof. split; [reflexivity | discriminate]. Qed.

(** C6, amended: for an index [n] from 0 to 675 and no custom number, the
    UpperAlpha or LowerAlpha label is the letter of [n // 26], left out
    when [n // 26] is 0, followed by the letter of [n % 26]; 25 is "z" and
    26 is "ba". *)
Theorem label_alpha :
  (forall (fuel : nat) (n startNumber : Z),
      0 <= n < 676 ->
      label fuel n LowerAlpha startNumber "" = Returns (alpha_label false n)
      /\ label fuel n UpperAlpha startNumber "" = Returns (alpha_label true n))
  /\ (forall fuel : nat, label fuel 25 LowerAlpha 1 "" = Returns "z")
  /\ (forall fuel : nat, label fuel 26 LowerAlpha 1 "" = Returns "ba").
Proof.
  split; [|split; reflexivity].
  intros fuel n startNumber Hn. unfold label. split.
  - apply getNumber_lower; [apply (label_plain n LowerAlpha) | exact Hn].
  - apply getNumber_upper; [apply (label_plain n UpperAlpha) | exact Hn].
Qed.

Lemma label_alpha_witness :
  0 <= 675 < 676
  /\ label 0 675 LowerAlpha 1 "" = Returns "zz"
  /\ label 0 675 UpperAlpha 1 "" = Returns "ZZ".
Proof.
  split; [lia|]. apply (proj1 label_alpha 0%nat 675 1). lia.
Defined.

(** C7: with no custom number, the Roman label of index [n] is the greedy
    encoding of [n + 1] over the thirteen symbols, whenever the fuel covers
    the [n + 1] iterations the loops can take; index 3 is "IV" and index 0
    is "I". *)
Theorem label_roman :
  (forall (fuel : nat) (n startNumber : Z),
      (Z.to_nat (n + 1) <= fuel)%nat ->
      label fuel n Roman startNumber "" = Returns (roman_numeral (n + 1)))
  /\ label 4 3 Roman 1 "" = Returns "IV"
  /\ label 1 0 Roman 1 "" = Returns "I".
Proof.
  split; [|split; reflexivity].
  intros fuel n startNumber Hfuel. unfold label.
  apply getNumber_roman; [apply (label_plain n Roman) | exact Hfuel].
Qed.

Lemma label_roman_witness :
  (Z.to_nat (1993 + 1) <= 1994)%nat
  /\ label 1994 1993 Roman 1 "" = Returns "MCMXCIV".
Proof.
  split; [lia|]. apply (proj1 label_roman 1994%nat 1993 1). lia.
Defined.

(** C8: a non-empty custom number is returned as it is, whatever the
    index, the style and the start number. *)
Theorem label_custom (fuel : nat) (index : Z) (style : LabelStyle)
    (startNumber : Z) (customOverride : string) :
  customOverride <> "" ->
  label fuel index style startNumber customOverride = Returns customOverride.
Proof.
  intros Hne. unfold label. now apply getNumber_custom.
Qed.

Lemma label_custom_witness :
  "CUSTOM" <> "" /\ label 0 676 UpperAlpha 7 "CUSTOM" = Returns "CUSTOM".
Proof.
  split; [discriminate|]. apply label_custom. discriminate.
Defined.

(** C9, at the failing input: index 676 in an alphabetic style makes
    [chars[26]] raise [IndexError]; no label is returned. *)
Theorem label_676_raises :
  forall fuel : nat,
    label fuel 676 LowerAlpha 1 "" = Raises IndexError
    /\ label fuel 676 UpperAlpha 1 "" = Raises IndexError.
Proof. intros fuel. split; reflexivity. Qed.

(** * Proofs: the geometry *)

Open Scope nat_scope.

(** *** The two number models satisfy the laws *)

Lemma real_fbool (a : R) : fbool a = false <-> a = 0%R.
Proof.
  simpl. destruct (Req_dec_T a 0) as [E | E]; split; intros H;
    try reflexivity; try assumption; try discriminate; contradiction.
Qed.

Lemma real_flt (a b : R) : flt a b = true <-> (a < b)%R.
Proof.
  simpl. destruct (Rlt_dec a b) as [E | E]; split; intros H;
    try reflexivity; try assumption; try discriminate; contradiction.
Qed.

#[export] Instance real_laws : PyFloatLaws R.
Proof.
  split.
  - apply real_fbool. reflexivity.
  - intros a Ha. apply real_flt in Ha. simpl in *.
    destruct (Req_dec_T a 0) as [E | E]; [lra | reflexivity].
  - intros c Hc. simpl in *.
    destruct (Req_dec_T c 0) as [E | E]; [|reflexivity].
    subst c. rewrite Rabs_R0 in Hc.
    destruct (Rlt_dec 0 (1 / 100)) as [L | L]; [discriminate | lra].
Qed.

Lemma prim_zero : Prim2SF 0%float = S754_zero false.
Proof. reflexivity. Qed.

Lemma prim_infinity : Prim2SF infinity = S754_infinity false.
Proof. reflexivity. Qed.

Lemma prim_0_01 :
  Prim2SF 0x1.47ae147ae147bp-7%float = S754_finite false 5764607523034235 (-59).
Proof. reflexivity. Qed.

Lemma binary64_laws (sin64 cos64 : float -> float) :
  @PyFloatLaws float (binary64_float sin64 cos64).
Proof.
  split.
  - reflexivity.
  - intros a. change (float_of_int 0) with 0%float. simpl.
    rewrite ltb_spec, eqb_spec, prim_zero.
    destruct (Prim2SF a) as [ [] | [] | | [] m e]; simpl;
      try reflexivity; try discriminate.
  - intros c. simpl.
    rewrite ltb_spec, eqb_spec, abs_spec, prim_0_01, prim_zero.
    destruct (Prim2SF c) as [ [] | [] | | [] m e]; simpl;
      try reflexivity; try discriminate.
Qed.

(** *** The loop *)

Section GeometryProofs.

Context {F : Type} {ops : PyFloat F} {laws : PyFloatLaws F}.

Lemma firstn_succ {A : Type} (l : list A) :
  forall (i : nat) (d : A),
    nth_error l i = Some d -> firstn (S i) l = (firstn i l ++ [d])%list.
Proof.
  induction l as [|a l IH]; intros [|i] d H; simpl in *; try discriminate.
  - now inversion H.
  - f_equal. now apply IH.
Qed.

Lemma cumulativeDistance_succ (distances : list F) (i : nat) (d : F) :
  nth_error distances i = Some d ->
  cumulativeDistance distances i
  = fadd (fold_left fadd (firstn i distances) (float_of_int 0)) d.
Proof.
  intros H. unfold cumulativeDistance.
  rewrite (firstn_succ _ _ _ H), fold_left_app. reflexivity.
Qed.

(** Where the source divides, the divisor is not zero. *)
Lemma truediv_guarded (length angle : F) :
  near_singular angle = false ->
  truediv length (libm_cos (math_radians angle))
  = Ok (fdiv length (libm_cos (math_radians angle))).
Proof.
  intros H. unfold truediv. now rewrite (fbool_guard _ H).
Qed.

(** One turn of the loop, on an angle that is not infinite. *)
Lemma execute_body_step (distances angles : list F) (length : F)
    (limit : option F) (dist : F) (geoms : list (Edge F)) (i : nat)
    (d a : F) :
  nth_error distances i = Some d -> nth_error angles i = Some a ->
  math_isinf (math_radians a) = false ->
  execute_body distances angles length limit (dist, geoms) i
  = Ok (fadd dist d,
        (geoms
         ++ axis_segments limit
              (mkVector (fadd dist d) (float_of_int 0) (float_of_int 0))
              (direction a)
              (vadd (mkVector (fadd dist d) (float_of_int 0) (float_of_int 0))
                 (vscale (direction a) (effective_length length a))))%list).
Proof.
  intros Hd Ha Hfin.
  unfold execute_body, list_getitem, math_sin, math_cos.
  rewrite Hd, Ha. cbn [bind]. cbv zeta. rewrite Hfin. cbn [bind].
  unfold axis_segments, effective_length, direction, stubs, full_line.
  destruct (near_singular a) eqn:Hs; unfold near_singular in Hs; rewrite Hs.
  - cbn [bind]. destruct (limit_bool limit); [|reflexivity].
    now rewrite <- app_assoc.
  - rewrite (truediv_guarded length a Hs). cbn [bind].
    destruct (limit_bool limit); [|reflexivity].
    now rewrite <- app_assoc.
Qed.

(** One turn of the loop, from the running sum of the axes before [i]. *)
Lemma execute_body_closed (distances angles : list F) (length : F)
    (limit : option F) (geoms : list (Edge F)) (i : nat) :
  i < List.length distances -> List.length distances = List.length angles ->
  no_infinite_angle angles ->
  execute_body distances angles length limit
    (fold_left fadd (firstn i distances) (float_of_int 0), geoms) i
  = Ok (cumulativeDistance distances i,
        (geoms ++ axis_segments_at distances angles length limit i)%list).
Proof.
  intros Hi Hlen Hfin.
  destruct (nth_error distances i) as [d|] eqn:Hd;
    [|apply nth_error_None in Hd; lia].
  destruct (nth_error angles i) as [a|] eqn:Ha;
    [|apply nth_error_None in Ha; lia].
  assert (Hfa : math_isinf (math_radians a) = false).
  { unfold no_infinite_angle in Hfin. rewrite Forall_forall in Hfin.
    apply Hfin. now apply nth_error_In with (n := i). }
  rewrite (execute_body_step _ _ _ _ _ _ _ _ _ Hd Ha Hfa).
  unfold axis_segments_at, end_point, base_point, angle_at.
  rewrite (nth_error_nth _ _ (float_of_int 0) Ha).
  now rewrite (cumulativeDistance_succ _ _ _ Hd).
Qed.

Lemma for_range_closed (distances angles : list F) (length : F)
    (limit : option F) (count : nat) :
  forall (start : nat) (geoms : list (Edge F)),
    start + count <= List.length distances ->
    List.length distances = List.length angles ->
    no_infinite_angle angles ->
    for_range (execute_body distances angles length limit) (seq start count)
      (fold_left fadd (firstn start distances) (float_of_int 0), geoms)
    = Ok (fold_left fadd (firstn (start + count) distances) (float_of_int 0),
          (geoms ++ flat_map (axis_segments_at distances angles length limit)
                      (seq start count))%list).
Proof.
  induction count as [|count IH]; intros start geoms Hle Hlen Hfin;
    cbn [seq for_range flat_map].
  - now rewrite Nat.add_0_r, app_nil_r.
  - rewrite execute_body_closed by (assumption || lia). cbn [bind].
    unfold cumulativeDistance at 1. rewrite IH by (assumption || lia).
    now rewrite Nat.add_succ_r, <- app_assoc.
Qed.

(** One turn of the loop on an infinite angle: the cosine of line 115
    raises. *)
Lemma execute_body_infinite (distances angles : list F) (length : F)
    (limit : option F) (st : F * list (Edge F)) (i : nat) (d a : F) :
  nth_error distances i = Some d -> nth_error angles i = Some a ->
  math_isinf (math_radians a) = true ->
  execute_body distances angles length limit st i = Raise ValueError.
Proof.
  intros Hd Ha Hinf. destruct st as [dist geoms].
  unfold execute_body, list_getitem, math_cos.
  rewrite Hd, Ha. cbn [bind]. cbv zeta. rewrite Hinf. reflexivity.
Qed.

(** The loop stops at the first infinite angle. *)
Lemma for_range_infinite (distances angles : list F) (length : F)
    (limit : option F) (count : nat) :
  forall (start : nat) (st : F * list (Edge F)),
    start + count <= List.length distances ->
    List.length distances = List.length angles ->
    (exists (i : nat) (a : F),
        start <= i < start + count /\ nth_error angles i = Some a
        /\ math_isinf (math_radians a) = true) ->
    for_range (execute_body distances angles length limit) (seq start count) st
    = Raise ValueError.
Proof.
  induction count as [|count IH]; intros start st Hle Hlen (i & a & Hi & Ha & Hinf);
    [lia|].
  cbn [seq for_range].
  destruct (nth_error distances start) as [d0|] eqn:Hd0;
    [|apply nth_error_None in Hd0; lia].
  destruct (nth_error angles start) as [a0|] eqn:Ha0;
    [|apply nth_error_None in Ha0; lia].
  destruct (math_isinf (math_radians a0)) eqn:Hinf0.
  - now rewrite (execute_body_infinite _ _ _ _ _ _ _ _ Hd0 Ha0 Hinf0).
  - destruct st as [dist geoms].
    rewrite (execute_body_step _ _ _ _ _ _ _ _ _ Hd0 Ha0 Hinf0). cbn [bind].
    apply IH; [lia | exact Hlen |].
    exists i, a. repeat split; try assumption; try lia.
    destruct (Nat.eq_dec i start) as [-> | Hne]; [|lia].
    rewrite Ha0 in Ha. inversion Ha; subst. congruence.
Qed.

Lemma no_infinite_angle_dec (angles : list F) :
  no_infinite_angle angles
  \/ exists (i : nat) (a : F),
       nth_error angles i = Some a /\ math_isinf (math_radians a) = true.
Proof.
  induction angles as [|a angles IH]; [left; constructor|].
  destruct (math_isinf (math_radians a)) eqn:Ha.
  - right. now exists 0, a.
  - destruct IH as [IH | (i & b & Hi & Hb)].
    + left. now constructor.
    + right. now exists (S i), b.
Qed.

(** The loop runs and, no angle being infinite, yields the closed form. *)
Lemma execute_geoms_closed (distances angles : list F) (length : F)
    (limit : option F) :
  distances <> [] -> List.length distances = List.length angles ->
  fbool length = true -> no_infinite_angle angles ->
  execute_geoms distances angles length limit
  = Ok (flat_map (axis_segments_at distances angles length limit)
          (seq 0 (List.length distances))).
Proof.
  intros Hne Hlen Hlength Hfin. unfold execute_geoms.
  destruct distances as [|d distances]; [contradiction|].
  destruct angles as [|a angles]; [discriminate|].
  rewrite Hlength, Hlen, Nat.eqb_refl. cbn [list_bool andb].
  rewrite <- Hlen.
  rewrite (for_range_closed _ _ _ _ _ 0 [])
    by (assumption || rewrite ?Hlen; lia).
  reflexivity.
Qed.

(** The loop runs into an infinite angle. *)
Lemma execute_geoms_infinite (distances angles : list F) (length : F)
    (limit : option F) (i : nat) (a : F) :
  distances <> [] -> List.length distances = List.length angles ->
  fbool length = true ->
  nth_error angles i = Some a -> math_isinf (math_radians a) = true ->
  execute_geoms distances angles length limit = Raise ValueError.
Proof.
  intros Hne Hlen Hlength Ha Hinf. unfold execute_geoms.
  assert (Hi : i < List.length angles)
    by (apply nth_error_Some; congruence).
  destruct distances as [|d distances]; [contradiction|].
  destruct angles as [|a0 angles]; [discriminate|].
  rewrite Hlength, Hlen, Nat.eqb_refl. cbn [list_bool andb].
  rewrite <- Hlen.
  rewrite (for_range_infinite _ _ _ _ _ 0); [reflexivity | lia | exact Hlen |].
  exists i, a. repeat split; try assumption; lia.
Qed.

(** What the loop returns, when it returns, is the closed form. *)
Lemma execute_geoms_ok (distances angles : list F) (length : F)
    (limit : option F) (geoms : list (Edge F)) :
  distances <> [] -> List.length distances = List.length angles ->
  fbool length = true ->
  execute_geoms distances angles length limit = Ok geoms ->
  no_infinite_angle angles
  /\ geoms = flat_map (axis_segments_at distances angles length limit)
               (seq 0 (List.length distances)).
Proof.
  intros Hne Hlen Hlength Hrun.
  destruct (no_infinite_angle_dec angles) as [Hfin | (i & a & Ha & Hinf)].
  - rewrite execute_geoms_closed in Hrun by assumption.
    inversion Hrun. now split.
  - rewrite (execute_geoms_infinite _ _ _ _ i a) in Hrun by assumption.
    discriminate.
Qed.

(** The loop does not run. *)
Lemma execute_geoms_degenerate (distances angles : list F) (length : F)
    (limit : option F) :
  distances = [] \/ fbool length = false
  \/ List.length distances <> List.length angles ->
  execute_geoms distances angles length limit = Ok [].
Proof.
  intros H. unfold execute_geoms.
  destruct H as [-> | [H | H]]; [reflexivity | |].
  - rewrite H, andb_false_r. reflexivity.
  - apply Nat.eqb_neq in H. rewrite H, andb_false_r.
    destruct (list_bool distances && fbool length)%bool; reflexivity.
Qed.

Lemma axis_segments_length (limit : option F) (p1 dir p2 : Vector F) :
  List.length (axis_segments limit p1 dir p2)
  = if limit_bool limit then 2 else 1.
Proof.
  unfold axis_segments. destruct (limit_bool limit); reflexivity.
Qed.

Lemma flat_map_length_const {A B : Type} (f : A -> list B) (k : nat)
    (l : list A) :
  (forall a, List.length (f a) = k) ->
  List.length (flat_map f l) = k * List.length l.
Proof.
  intros Hf. induction l as [|a l IH]; simpl; [lia|].
  rewrite length_app, Hf, IH. lia.
Qed.

End GeometryProofs.

(** *** CPython floats *)

(** For binary64 and any [sin] and [cos], the loop is its closed form
    when no angle is infinite. *)
Corollary binary64_generate_closed (sin64 cos64 : float -> float)
    (distances angles : list float) (length limit : float) :
  distances <> [] ->
  List.length distances = List.length angles ->
  PrimFloat.ltb 0%float length = true ->
  no_infinite_angle (ops := binary64_float sin64 cos64) angles ->
  generate (ops := binary64_float sin64 cos64)
    distances angles length limit
  = Ok (generate_spec (ops := binary64_float sin64 cos64)
          distances angles length limit).
Proof.
  intros Hne Hlen Hpos Hfin. unfold generate, generate_spec.
  apply (execute_geoms_closed (laws := binary64_laws sin64 cos64));
    [exact Hne | exact Hlen | | exact Hfin].
  now apply (fbool_pos (PyFloatLaws := binary64_laws sin64 cos64)).
Qed.

(** Binary64 is symmetric in the sign: a product by an opposite is the
    opposite of the product, and adding an opposite is subtracting. *)
Lemma SFmul_opp_r (x y : spec_float) :
  SFmul prec emax x (SFopp y) = SFopp (SFmul prec emax x y).
Proof.
  destruct x as [sx | sx | | sx mx ex], y as [sy | sy | | sy my ey];
    cbn [SFmul SFopp]; try reflexivity;
    try (now destruct sx, sy).
  replace (xorb sx (negb sy)) with (negb (xorb sx sy)) by now destruct sx, sy.
  generalize (xorb sx sy). intros s.
  unfold binary_round_aux.
  destruct (shr_fexp prec emax _ _ loc_Exact) as [mrs e'].
  destruct (shr_fexp prec emax _ e' loc_Exact) as [mrs' e''].
  destruct (shr_m mrs'); try reflexivity.
  destruct (Z.leb _ _); reflexivity.
Qed.

Lemma SFadd_opp_r (x y : spec_float) :
  SFadd prec emax x (SFopp y) = SFsub prec emax x y.
Proof.
  destruct x as [sx | sx | | sx mx ex], y as [sy | sy | | sy my ey];
    cbn [SFadd SFsub SFopp]; try reflexivity;
    now destruct sx, sy.
Qed.

Lemma binary64_add_mul_opp (x y l : float) :
  (x + y * - l = x - y * l)%float.
Proof.
  apply Prim2SF_inj.
  rewrite add_spec, sub_spec, !mul_spec, opp_spec.
  unfold SF64add, SF64sub, SF64mul.
  now rewrite SFmul_opp_r, SFadd_opp_r.
Qed.

(** An infinite angle stays infinite in radians. *)
Lemma binary64_radians_infinite (sin64 cos64 : float -> float) (a : float) :
  PrimFloat.is_infinity a = true ->
  math_isinf (PyFloat := binary64_float sin64 cos64)
    (math_radians (PyFloat := binary64_float sin64 cos64) a) = true.
Proof.
  intros H. unfold PrimFloat.is_infinity in H.
  rewrite eqb_spec, abs_spec in H.
  rewrite <- (SF2Prim_Prim2SF a).
  destruct (Prim2SF a) as [ [] | [] | | [] m e]; simpl in H;
    try discriminate; reflexivity.
Qed.

(** The axis of angle 0 in binary64, where [sin(0.0)] is [0.0] and
    [cos(0.0)] is [1.0]. *)
Example binary64_axis_0 (sin64 cos64 : float -> float) :
  sin64 0%float = 0%float -> cos64 0%float = 1%float ->
  generate (ops := binary64_float sin64 cos64)
    [0%float] [0%float] 1000%float 0%float
  = Ok [LineSegment (mkVector 0%float 0%float 0%float)
          (mkVector 0%float 1000%float 0%float)].
Proof.
  intros Hsin Hcos. vm_compute. rewrite Hsin, Hcos. reflexivity.
Qed.


(** *** Real numbers: the values at 0 and 90 degrees *)

Lemma real_fbool_true (a : R) : a <> 0%R -> fbool a = true.
Proof.
  intros H. simpl. destruct (Req_dec_T a 0); [contradiction | reflexivity].
Qed.

Lemma real_positive (a : R) : (0 < a)%R -> flt (float_of_int 0) a = true.
Proof. intros H. now apply real_flt. Qed.

Lemma real_no_infinite_angle (angles : list R) : no_infinite_angle angles.
Proof.
  induction angles as [|a angles IH]; constructor; [reflexivity | exact IH].
Qed.

Lemma real_radians_0 : math_radians 0%R = 0%R.
Proof. simpl. lra. Qed.

Lemma real_radians_90 : math_radians 90%R = (PI / 2)%R.
Proof. simpl. lra. Qed.

Lemma real_near_singular_0 : near_singular 0%R = false.
Proof.
  unfold near_singular. rewrite real_radians_0.
  cbn [libm_cos fabs flt lit_0_01 real_float]. rewrite cos_0, Rabs_R1.
  destruct (Rlt_dec 1 (1 / 100)); [lra | reflexivity].
Qed.

Lemma real_near_singular_90 : near_singular 90%R = true.
Proof.
  unfold near_singular. rewrite real_radians_90.
  cbn [libm_cos fabs flt lit_0_01 real_float]. rewrite cos_PI2, Rabs_R0.
  destruct (Rlt_dec 0 (1 / 100)); [reflexivity | lra].
Qed.

Lemma real_direction_0 : direction 0%R = mkVector 0%R 1%R 0%R.
Proof.
  unfold direction. rewrite real_radians_0.
  cbn [libm_sin libm_cos float_of_int real_float]. now rewrite sin_0, cos_0.
Qed.

Lemma real_direction_90 : direction 90%R = mkVector 1%R 0%R 0%R.
Proof.
  unfold direction. rewrite real_radians_90.
  cbn [libm_sin libm_cos float_of_int real_float].
  now rewrite sin_PI2, cos_PI2.
Qed.

Lemma real_effective_length_0 (length : R) :
  effective_length length 0%R = length.
Proof.
  unfold effective_length. rewrite real_near_singular_0, real_radians_0.
  cbn [libm_cos fdiv real_float]. rewrite cos_0. lra.
Qed.

Lemma real_effective_length_90 (length : R) :
  effective_length length 90%R = (100 * length)%R.
Proof.
  unfold effective_length. now rewrite real_near_singular_90.
Qed.

(** Outside the near-singular branch the cosine is not zero. *)
Lemma real_cos_nonzero (angle : R) :
  near_singular angle = false -> cos (math_radians angle) <> 0%R.
Proof.
  unfold near_singular. cbn [libm_cos fabs flt lit_0_01 real_float].
  intros H E. rewrite E, Rabs_R0 in H.
  destruct (Rlt_dec 0 (1 / 100)); [discriminate | lra].
Qed.

Lemma vector_eq (a b c a' b' c' : R) :
  a = a' -> b = b' -> c = c' -> mkVector a b c = mkVector a' b' c'.
Proof. now intros -> -> ->. Qed.

Lemma flat_map_singleton {A B : Type} (f : A -> B) (l : list A) :
  flat_map (fun a => [f a]) l = map f l.
Proof.
  induction l as [|a l IH]; simpl; [reflexivity | now rewrite IH].
Qed.

Lemma segment_eq (a b c d e f a' b' c' d' e' f' : R) :
  a = a' -> b = b' -> c = c' -> d = d' -> e = e' -> f = f' ->
  LineSegment (mkVector a b c) (mkVector d e f)
  = LineSegment (mkVector a' b' c') (mkVector d' e' f').
Proof. now intros -> -> -> -> -> ->. Qed.

(** Evaluation of the closed form on real axes of angle 0 or 90. *)
Ltac real_axes :=
  cbv zeta;
  unfold axis_segments_at, axis_segments, end_point, base_point, angle_at,
    cumulativeDistance, full_line, stubs;
  cbn [List.length seq flat_map map nth firstn fold_left limit_bool
       limit_value];
  repeat match goal with
    | |- context [mkVector (libm_sin (math_radians ?a))
                    (libm_cos (math_radians ?a)) (float_of_int 0)] =>
        change (mkVector (libm_sin (math_radians a))
                  (libm_cos (math_radians a)) (float_of_int 0))
          with (direction a)
    | |- context [flt (fabs (libm_cos (math_radians ?a))) lit_0_01] =>
        change (flt (fabs (libm_cos (math_radians a))) lit_0_01)
          with (near_singular a)
    | |- context [fbool ?a] =>
        first [ rewrite (proj2 (real_fbool a)) by lra
              | rewrite (real_fbool_true a) by lra ]
    end;
  rewrite ?real_direction_0, ?real_direction_90, ?real_effective_length_0,
    ?real_effective_length_90, ?real_near_singular_0, ?real_near_singular_90;
  unfold vadd, vscale;
  cbn [vx vy vz fadd fmul fneg float_of_int real_float app].

Ltac real_segments :=
  apply f_equal;
  repeat (apply f_equal2; [apply segment_eq; lra|]);
  reflexivity.

(** *** The claims on the geometry *)

(** An infinite angle: [math.cos] raises on the first turn of the loop,
    whatever the C library. *)
Lemma binary64_infinite_angle (sin64 cos64 : float -> float)
    (distances angles : list float) (length limit : float)
    (i : nat) (a : float) :
  distances <> [] ->
  List.length distances = List.length angles ->
  PrimFloat.ltb 0%float length = true ->
  nth_error angles i = Some a -> PrimFloat.is_infinity a = true ->
  generate (ops := binary64_float sin64 cos64) distances angles length limit
  = Raise ValueError.
Proof.
  intros Hne Hlen Hpos Ha Hinf. unfold generate.
  apply (execute_geoms_infinite (laws := binary64_laws sin64 cos64)
           distances angles length (Some limit) i a);
    [exact Hne | exact Hlen | | exact Ha |].
  - now apply (fbool_pos (PyFloatLaws := binary64_laws sin64 cos64)).
  - now apply binary64_radians_infinite.
Qed.

(** C1, as stated, fails: one distance, one angle and a positive length
    are a valid input, but on the angle [inf] the cosine of line 115 raises
    [ValueError] and nothing is computed. *)
Lemma generate_infinite_angle :
  PrimFloat.ltb 0%float 1000%float = true
  /\ generate (ops := cpython) [0%float] [infinity] 1000%float 0%float
     = Raise ValueError.
Proof.
  split; [reflexivity|].
  apply (binary64_infinite_angle glibc_sin glibc_cos _ _ _ _ 0 infinity);
    try reflexivity. discriminate.
Qed.

(** C1, amended: on a valid input (distances not empty, as many angles,
    none of them infinite, a positive length) [generate] raises nothing and
    returns, for the indices in order, the segments built from the running
    sum of the distances, the direction [(sin a, cos a, 0)] of the angle in
    radians, the base point [p1 = (sum, 0, 0)] and the end point
    [p2 = p1 + dir * ln]; in binary64, where [sin(0.0)] is [0.0] and
    [cos(0.0)] is [1.0], [generate([0], [0], 1000, 0)] is the one segment
    from (0,0,0) to (0,1000,0). *)
Theorem generate_computes :
  (forall (F : Type) (ops : PyFloat F),
      PyFloatLaws F ->
      forall (distances angles : list F) (length limit : F),
        distances <> [] ->
        List.length distances = List.length angles ->
        no_infinite_angle angles ->
        flt (float_of_int 0) length = true ->
        generate distances angles length limit
        = Ok (flat_map
                (fun i =>
                   let cumulative :=
                     fold_left fadd (firstn (S i) distances) (float_of_int 0) in
                   let a := math_radians (angle_at angles i) in
                   let dir := mkVector (libm_sin a) (libm_cos a) (float_of_int 0) in
                   let ln := effective_length length (angle_at angles i) in
                   let p1 := mkVector cumulative (float_of_int 0) (float_of_int 0) in
                   let p2 := vadd p1 (vscale dir ln) in
                   axis_segments (Some limit) p1 dir p2)
                (seq 0 (List.length distances))))
  /\ (forall sin64 cos64 : float -> float,
         sin64 0%float = 0%float -> cos64 0%float = 1%float ->
         generate (ops := binary64_float sin64 cos64)
           [0%float] [0%float] 1000%float 0%float
         = Ok [LineSegment (mkVector 0%float 0%float 0%float)
                 (mkVector 0%float 1000%float 0%float)]).
Proof.
  split.
  - intros F ops laws distances angles length limit Hne Hlen Hfin Hpos.
    unfold generate.
    rewrite execute_geoms_closed by (auto using fbool_pos). reflexivity.
  - exact binary64_axis_0.
Qed.

Lemma generate_computes_witness :
  generate [2%R; 3%R] [0%R; 90%R] 1000%R 0%R
  = Ok [LineSegment (mkVector 2%R 0%R 0%R) (mkVector 2%R 1000%R 0%R);
        LineSegment (mkVector 5%R 0%R 0%R) (mkVector 100005%R 0%R 0%R)]
  /\ generate (ops := cpython) [0%float] [0%float] 1000%float 0%float
     = Ok [LineSegment (mkVector 0%float 0%float 0%float)
             (mkVector 0%float 1000%float 0%float)].
Proof.
  split.
  - rewrite (proj1 generate_computes R real_float real_laws
               [2%R; 3%R] [0%R; 90%R] 1000%R 0%R);
      [| discriminate | reflexivity | apply real_no_infinite_angle
       | apply real_positive; lra].
    real_axes. real_segments.
  - apply (proj2 generate_computes glibc_sin glibc_cos); reflexivity.
Defined.

(** Over the real numbers, outside the near-singular branch, the segment
    from [p1] to [p2] projects onto the direction of an axis of angle 0
    with the nominal length.  This is the arithmetic behind the division
    by the cosine; binary64 rounds the product and the quotient. *)
Lemma real_projection (length angle : R) (p1 : Vector R) :
  flt (fabs (libm_cos (math_radians angle))) lit_0_01 = false ->
  let ang := math_radians angle in
  let ln := fdiv length (libm_cos ang) in
  let unitvec := mkVector (libm_sin ang) (libm_cos ang) 0%R in
  let p2 := vadd p1 (vscale unitvec ln) in
  dot (vsub p2 p1) baseline = length.
Proof.
  destruct p1 as [x1 y1 z1]. intros Hs. cbv zeta.
  pose proof (real_cos_nonzero angle Hs) as Hc.
  unfold dot, vsub, vadd, vscale, baseline.
  cbn [vx vy vz fadd fmul fdiv libm_cos libm_sin real_float]. field.
  exact Hc.
Qed.




(** C3, as stated, fails: with a limit above 0 on a valid input, an
    infinite angle makes the cosine of line 115 raise [ValueError] and no
    segment is emitted. *)
Lemma limit_infinite_angle :
  PrimFloat.ltb 0%float 500%float = true
  /\ generate (ops := cpython) [0%float] [neg_infinity] 1000%float 500%float
     = Raise ValueError.
Proof.
  split; [reflexivity|].
  apply (binary64_infinite_angle glibc_sin glibc_cos _ _ _ _ 0 neg_infinity);
    try reflexivity. discriminate.
Qed.

(** C3, amended: on a valid input without an infinite angle, a limit above
    0 makes every axis two segments, from [p1] to [p1 + dir * limit] and
    from [p2] to [p2 + dir * (-limit)], whatever the effective length; a
    limit of 0 makes it the one segment from [p1] to [p2].  In binary64, as
    over the real numbers, [p2 + dir * (-limit)] is [p2 - dir * limit]. *)
Theorem limit_splits_axes :
  (forall (F : Type) (ops : PyFloat F),
      PyFloatLaws F ->
      forall (distances angles : list F) (length limit : F),
        distances <> [] ->
        List.length distances = List.length angles ->
        no_infinite_angle angles ->
        flt (float_of_int 0) length = true ->
        (flt (float_of_int 0) limit = true ->
         generate distances angles length limit
         = Ok (flat_map
                 (fun i =>
                    let p1 := base_point distances i in
                    let dir := direction (angle_at angles i) in
                    let p2 := end_point distances angles length i in
                    [LineSegment p1 (vadd p1 (vscale dir limit));
                     LineSegment p2 (vadd p2 (vscale dir (fneg limit)))])
                 (seq 0 (List.length distances))))
        /\ (fbool limit = false ->
            generate distances angles length limit
            = Ok (map
                    (fun i =>
                       LineSegment (base_point distances i)
                         (end_point distances angles length i))
                    (seq 0 (List.length distances)))))
  /\ (forall (sin64 cos64 : float -> float) (p2 dir : Vector float)
             (limit : float),
         vadd (ops := binary64_float sin64 cos64) p2
           (vscale (ops := binary64_float sin64 cos64) dir
              (fneg (PyFloat := binary64_float sin64 cos64) limit))
         = vsub64 p2 (vscale (ops := binary64_float sin64 cos64) dir limit))
  /\ (forall (p2 dir : Vector R) (limit : R),
         vadd p2 (vscale dir (fneg limit)) = vsub p2 (vscale dir limit)).
Proof.
  split; [|split].
  - intros F ops laws distances angles length limit Hne Hlen Hfin Hpos.
    unfold generate.
    rewrite execute_geoms_closed by (auto using fbool_pos).
    unfold axis_segments_at, axis_segments, stubs, full_line.
    cbn [limit_bool limit_value]. split; intros Hlimit.
    + now rewrite (fbool_pos _ Hlimit).
    + rewrite Hlimit. now rewrite flat_map_singleton.
  - intros sin64 cos64 [x2 y2 z2] [dx dy dz] limit.
    unfold vadd, vsub64, vscale.
    cbn [vx vy vz fadd fmul fneg binary64_float].
    now rewrite !binary64_add_mul_opp.
  - intros [x2 y2 z2] [dx dy dz] limit. unfold vadd, vsub, vscale.
    cbn [vx vy vz fadd fmul fneg real_float]. apply vector_eq; lra.
Qed.

(** A limit of 5000 on an axis of length 1000: the stubs are not clamped. *)
Lemma limit_splits_axes_witness :
  generate [0%R] [0%R] 1000%R 5000%R
  = Ok [LineSegment (mkVector 0%R 0%R 0%R) (mkVector 0%R 5000%R 0%R);
        LineSegment (mkVector 0%R 1000%R 0%R) (mkVector 0%R (-4000)%R 0%R)]
  /\ generate (ops := cpython) [0%float] [0%float] 1000%float 5000%float
     = Ok [LineSegment (mkVector 0%float 0%float 0%float)
             (mkVector 0%float 5000%float 0%float);
           LineSegment (mkVector 0%float 1000%float 0%float)
             (mkVector 0%float (-4000)%float 0%float)].
Proof.
  split.
  - rewrite (proj1 (proj1 limit_splits_axes R real_float real_laws
                      [0%R] [0%R] 1000%R 5000%R
                      ltac:(discriminate) eq_refl
                      (real_no_infinite_angle [0%R])
                      (real_positive 1000%R ltac:(lra))));
      [| apply real_positive; lra].
    real_axes. real_segments.
  - rewrite (proj1 (proj1 limit_splits_axes float cpython
                      (binary64_laws glibc_sin glibc_cos)
                      [0%float] [0%float] 1000%float 5000%float
                      ltac:(discriminate) eq_refl
                      ltac:(repeat constructor) eq_refl) eq_refl).
    reflexivity.
Defined.

(** C4, as stated, fails: two distances, two angles and a positive length
    are a valid input, but with the second angle infinite [generate] raises
    [ValueError] in the second turn and returns no segment at all. *)
Lemma count_infinite_angle :
  List.length [1%float; 2%float] = List.length [0%float; infinity]
  /\ generate (ops := cpython) [1%float; 2%float] [0%float; infinity]
       1000%float 0%float
     = Raise ValueError.
Proof.
  split; [reflexivity|].
  apply (binary64_infinite_angle glibc_sin glibc_cos _ _ _ _ 1 infinity);
    try reflexivity. discriminate.
Qed.

(** C4, amended: on a valid input without an infinite angle [generate]
    returns as many segments as there are distances when the limit is 0,
    and twice as many when it is above 0. *)
Theorem segment_count (F : Type) (ops : PyFloat F) (laws : PyFloatLaws F)
    (distances angles : list F) (length limit : F) :
  distances <> [] ->
  List.length distances = List.length angles ->
  no_infinite_angle angles ->
  flt (float_of_int 0) length = true ->
  exists geoms : list (Edge F),
    generate distances angles length limit = Ok geoms
    /\ (fbool limit = false -> List.length geoms = List.length distances)
    /\ (flt (float_of_int 0) limit = true ->
        List.length geoms = 2 * List.length distances).
Proof.
  intros Hne Hlen Hfin Hpos. unfold generate.
  rewrite execute_geoms_closed by (auto using fbool_pos).
  eexists. split; [reflexivity|].
  split; intros Hlimit.
  - rewrite (flat_map_length_const _ 1), length_seq; [lia|].
    intros i. unfold axis_segments_at. rewrite axis_segments_length.
    cbn [limit_bool]. now rewrite Hlimit.
  - rewrite (flat_map_length_const _ 2), length_seq; [lia|].
    intros i. unfold axis_segments_at. rewrite axis_segments_length.
    cbn [limit_bool]. now rewrite (fbool_pos _ Hlimit).
Qed.

Lemma segment_count_witness :
  (exists geoms : list (Edge R),
      generate [1%R; 2%R; 3%R] [0%R; 30%R; 90%R] 1000%R 0%R = Ok geoms
      /\ List.length geoms = 3)
  /\ (exists geoms : list (Edge R),
         generate [1%R; 2%R; 3%R] [0%R; 30%R; 90%R] 1000%R 10%R = Ok geoms
         /\ List.length geoms = 6)
  /\ (exists geoms : list (Edge float),
         generate (ops := cpython) [1%float; 2%float] [20%float; 90%float]
           1000%float 10%float = Ok geoms
         /\ List.length geoms = 4).
Proof.
  split; [|split].
  - destruct (segment_count R real_float real_laws
                [1%R; 2%R; 3%R] [0%R; 30%R; 90%R] 1000%R 0%R
                ltac:(discriminate) eq_refl
                (real_no_infinite_angle [0%R; 30%R; 90%R])
                (real_positive 1000%R ltac:(lra)))
      as (geoms & Hrun & Hzero & _).
    exists geoms. split; [exact Hrun|]. apply Hzero. now apply real_fbool.
  - destruct (segment_count R real_float real_laws
                [1%R; 2%R; 3%R] [0%R; 30%R; 90%R] 1000%R 10%R
                ltac:(discriminate) eq_refl
                (real_no_infinite_angle [0%R; 30%R; 90%R])
                (real_positive 1000%R ltac:(lra)))
      as (geoms & Hrun & _ & Hpos).
    exists geoms. split; [exact Hrun|]. apply Hpos. apply real_positive. lra.
  - destruct (segment_count float cpython (binary64_laws glibc_sin glibc_cos)
                [1%float; 2%float] [20%float; 90%float] 1000%float 10%float
                ltac:(discriminate) eq_refl
                ltac:(repeat constructor) eq_refl)
      as (geoms & Hrun & _ & Hpos).
    exists geoms. split; [exact Hrun|]. now apply Hpos.
Defined.

(** C5, as stated, fails: a negative length is truthy, so the loop runs and
    one axis of length -1 comes out. *)
Lemma negative_length_generates :
  (-1 <= 0)%R
  /\ generate [0%R] [0%R] (-1)%R 0%R
     = Ok [LineSegment (mkVector 0%R 0%R 0%R) (mkVector 0%R (-1)%R 0%R)].
Proof.
  split; [lra|]. unfold generate.
  rewrite execute_geoms_closed;
    [| discriminate | reflexivity | apply real_fbool_true; lra
     | apply real_no_infinite_angle].
  real_axes. real_segments.
Qed.

(** C5, amended: when there are no distances, or the length is zero, or
    there are not as many angles as distances, [generate] raises nothing
    and returns the empty list. *)
Theorem generate_degenerate (F : Type) (ops : PyFloat F)
    (distances angles : list F) (length limit : F) :
  distances = [] \/ fbool length = false
  \/ List.length distances <> List.length angles ->
  generate distances angles length limit = Ok [].
Proof.
  intros H. unfold generate. now apply execute_geoms_degenerate.
Qed.

Lemma generate_degenerate_witness :
  generate ([] : list R) [] 100%R 0%R = Ok []
  /\ generate [1%R; 2%R] [0%R] 100%R 0%R = Ok []
  /\ generate [1%R] [0%R] 0%R 0%R = Ok [].
Proof.
  split; [|split]; apply generate_degenerate.
  - now left.
  - right. right. simpl. lia.
  - right. left. now apply real_fbool.
Defined.

(** C10: when no geometry comes out, [execute] assigns no property and the
    object, its [Shape] included, is as before; this is so whenever there
    are no distances, the length is zero or the angles do not match.
    Whenever a property is assigned or the object changes, at least one
    segment was produced, and [Shape] then holds these segments while
    [Placement] has its former value. *)
Theorem execute_keeps_shape (F : Type) (ops : PyFloat F) (obj : AxisObject F) :
  (execute_geoms (distances_of obj) (angles_of obj) (Length obj) (Limit obj)
   = Ok [] ->
   execute obj = Ok (obj, []))
  /\ (distances_of obj = [] \/ fbool (Length obj) = false
      \/ List.length (distances_of obj) <> List.length (angles_of obj) ->
      execute obj = Ok (obj, []))
  /\ (forall (obj' : AxisObject F) (assigned : list string),
         execute obj = Ok (obj', assigned) ->
         assigned <> [] \/ obj' <> obj ->
         exists geoms : list (Edge F),
           geoms <> []
           /\ execute_geoms (distances_of obj) (angles_of obj) (Length obj)
                (Limit obj) = Ok geoms
           /\ assigned = ["Shape"; "Placement"]%string
           /\ Shape obj' = Compound geoms
           /\ Placement obj' = Placement obj).
Proof.
  assert (Hempty :
    execute_geoms (distances_of obj) (angles_of obj) (Length obj) (Limit obj)
    = Ok [] -> execute obj = Ok (obj, [])).
  { intros H. unfold execute. cbv zeta. rewrite H. reflexivity. }
  split; [exact Hempty | split].
  - intros H. apply Hempty. now apply execute_geoms_degenerate.
  - intros obj' assigned Hrun Hchanged. unfold execute in Hrun.
    cbv zeta in Hrun.
    destruct (execute_geoms (distances_of obj) (angles_of obj) (Length obj)
                (Limit obj)) as [[|e geoms] | err]; cbn in Hrun.
    + inversion Hrun; subst. destruct Hchanged as [H | H]; now elim H.
    + inversion Hrun; subst. exists (e :: geoms).
      repeat split; try reflexivity. discriminate.
    + discriminate.
Qed.

Lemma execute_keeps_shape_witness :
  execute emptied_axis = Ok (emptied_axis, [])
  /\ Shape emptied_axis
     = Compound [LineSegment (mkVector 0%R 0%R 0%R) (mkVector 0%R 3000%R 0%R)].
Proof.
  split; [|reflexivity].
  apply (proj1 (proj2 (execute_keeps_shape R real_float emptied_axis))).
  left. reflexivity.
Defined.

(** * More on the numbering scheme *)

Open Scope Z_scope.

(** *** Decimal labels *)

Lemma str_nonempty (z : Z) : str z <> "".
Proof.
  unfold str. destruct z as [|p|p]; simpl; try discriminate.
  destruct (Pos.to_uint p); discriminate.
Qed.

Lemma decimal_value_str (z : Z) : decimal_value (str z) = Some z.
Proof.
  unfold decimal_value, str. rewrite NilZero.isi.
  - simpl. now rewrite DecimalZ.of_to.
  - destruct z as [|p|p]; simpl; try discriminate.
    intros H. inversion H as [E]. now apply DecimalPos.Unsigned.to_uint_nonnil in E.
  - destruct z as [|p|p]; simpl; try discriminate.
    intros H. inversion H as [E]. now apply DecimalPos.Unsigned.to_uint_nonnil in E.
Qed.

Lemma str_injective (z1 z2 : Z) : str z1 = str z2 -> z1 = z2.
Proof.
  intros H. apply (f_equal decimal_value) in H.
  rewrite !decimal_value_str in H. now inversion H.
Qed.

Lemma of_uint_leading_zeros (k : nat) (d : Decimal.uint) :
  Z.of_uint (leading_zeros k d) = Z.of_uint d.
Proof.
  induction k as [|k IH]; [reflexivity|]. exact IH.
Qed.

Lemma uint_of_string_zeros (k : nat) (s : string) (d : Decimal.uint) :
  NilEmpty.uint_of_string s = Some d ->
  NilEmpty.uint_of_string (zeros k ++ s) = Some (leading_zeros k d).
Proof.
  intros H. induction k as [|k IH]; simpl; [exact H|].
  now rewrite IH.
Qed.

Lemma zeros_length (k : nat) : String.length (zeros k) = k.
Proof. induction k as [|k IH]; simpl; [reflexivity | now rewrite IH]. Qed.

Lemma string_app_length (a b : string) :
  String.length (a ++ b) = (String.length a + String.length b)%nat.
Proof. induction a as [|c a IH]; simpl; [reflexivity | now rewrite IH]. Qed.

(** Padding reaches the width and never cuts. *)
Lemma zfill_length (width : nat) (s : string) :
  String.length (zfill width s) = Nat.max width (String.length s).
Proof.
  unfold zfill. destruct (width <=? String.length s)%nat eqn:E.
  - apply Nat.leb_le in E. lia.
  - apply Nat.leb_gt in E. destruct s as [|c rest].
    + rewrite zeros_length. simpl. lia.
    + destruct (Ascii.eqb c "+" || Ascii.eqb c "-")%bool; simpl in *;
        rewrite ?string_app_length, zeros_length; simpl; lia.
Qed.

Lemma digits_head (p : positive) :
  exists c rest,
    NilEmpty.string_of_uint (Pos.to_uint p) = String c rest
    /\ Ascii.eqb c "+" = false /\ Ascii.eqb c "-" = false.
Proof.
  pose proof (DecimalPos.Unsigned.to_uint_nonnil p) as Hn.
  destruct (Pos.to_uint p); [now elim Hn| ..]; simpl; eauto.
Qed.

Lemma string_of_uint_nonnil (d : Decimal.uint) :
  d <> Decimal.Nil -> NilZero.string_of_uint d = NilEmpty.string_of_uint d.
Proof. destruct d; [intros H; now elim H | reflexivity ..]. Qed.

Lemma padded_value (k : nat) (s : string) (d : Decimal.uint) :
  NilEmpty.uint_of_string s = Some d ->
  (exists c rest, s = String c rest /\ Ascii.eqb c "-" = false) ->
  decimal_value (zeros k ++ s) = Some (Z.of_uint d).
Proof.
  intros Hd (c & rest & Hs & Hminus).
  pose proof (uint_of_string_zeros k s d Hd) as Hz.
  assert (Hhead : exists c' rest',
             zeros k ++ s = String c' rest' /\ Ascii.eqb c' "-" = false).
  { destruct k as [|k]; simpl; [rewrite Hs|]; eauto. }
  destruct Hhead as (c' & rest' & Hhead & Hminus').
  unfold decimal_value, NilZero.int_of_string, NilZero.uint_of_string.
  rewrite Hhead, Hminus', <- Hhead, Hz. cbn [option_map Z.of_int].
  now rewrite of_uint_leading_zeros.
Qed.

Lemma padded_negative_value (k : nat) (s : string) (d : Decimal.uint) :
  NilEmpty.uint_of_string s = Some d -> s <> "" ->
  decimal_value (String "-" (zeros k ++ s)) = Some (- Z.of_uint d).
Proof.
  intros Hd Hne.
  pose proof (uint_of_string_zeros k s d Hd) as Hz.
  assert (Hhead : exists c' rest', zeros k ++ s = String c' rest').
  { destruct k as [|k]; simpl; [destruct s; [now elim Hne|]|]; eauto. }
  destruct Hhead as (c' & rest' & Hhead).
  unfold decimal_value, NilZero.int_of_string, NilZero.uint_of_string.
  cbn [Ascii.eqb Bool.eqb]. rewrite Hhead, <- Hhead, Hz.
  cbn [option_map Z.of_int]. now rewrite of_uint_leading_zeros.
Qed.

(** A padded numeral writes the same integer. *)
Lemma decimal_value_zfill (width : nat) (z : Z) :
  decimal_value (zfill width (str z)) = Some z.
Proof.
  unfold zfill. destruct (width <=? String.length (str z))%nat;
    [apply decimal_value_str|].
  generalize (width - String.length (str z))%nat as k. intros k.
  unfold str. destruct z as [|p|p].
  - cbn [Z.to_int NilZero.string_of_int NilZero.string_of_uint
         Ascii.eqb Bool.eqb orb].
    apply (padded_value k "0" (Decimal.D0 Decimal.Nil)); [reflexivity|].
    now exists "0"%char, "".
  - cbn [Z.to_int NilZero.string_of_int].
    rewrite string_of_uint_nonnil by apply DecimalPos.Unsigned.to_uint_nonnil.
    destruct (digits_head p) as (c & rest & Hs & Hplus & Hminus).
    rewrite Hs, Hplus, Hminus. cbn [orb]. rewrite <- Hs.
    rewrite (padded_value k _ _ (NilEmpty.usu (Pos.to_uint p))).
    + unfold Z.of_uint. now rewrite DecimalPos.Unsigned.of_to.
    + exists c, rest. now split.
  - cbn [Z.to_int NilZero.string_of_int].
    rewrite string_of_uint_nonnil by apply DecimalPos.Unsigned.to_uint_nonnil.
    cbn [Ascii.eqb Bool.eqb orb].
    rewrite (padded_negative_value k _ _ (NilEmpty.usu (Pos.to_uint p))).
    + unfold Z.of_uint. now rewrite DecimalPos.Unsigned.of_to.
    + destruct (digits_head p) as (c & rest & Hs & _). now rewrite Hs.
Qed.

(** *** Letters *)

Lemma alpha_char_injective (uppercase : bool) (k k' : Z) :
  0 <= k < 26 -> 0 <= k' < 26 ->
  alpha_char uppercase k = alpha_char uppercase k' -> k = k'.
Proof.
  intros Hk Hk' H. unfold alpha_char in H. inversion H as [E].
  apply (f_equal nat_of_ascii) in E.
  rewrite !nat_ascii_embedding in E by (destruct uppercase; lia).
  destruct uppercase; lia.
Qed.

Lemma alpha_label_injective (uppercase : bool) (n m : Z) :
  0 <= n < 676 -> 0 <= m < 676 ->
  alpha_label uppercase n = alpha_label uppercase m -> n = m.
Proof.
  intros Hn Hm. unfold alpha_label.
  assert (Hqn : 0 <= n / 26 < 26) by div_lia.
  assert (Hqm : 0 <= m / 26 < 26) by div_lia.
  assert (Hrn : 0 <= n mod 26 < 26) by div_lia.
  assert (Hrm : 0 <= m mod 26 < 26) by div_lia.
  destruct (n / 26 =? 0) eqn:En; destruct (m / 26 =? 0) eqn:Em;
    unfold alpha_char; cbn [String.append]; intros H;
    inversion H as [[E1 E2]].
  - apply Z.eqb_eq in En, Em.
    assert (n mod 26 = m mod 26)
      by (apply (alpha_char_injective uppercase); unfold alpha_char; congruence).
    div_lia.
  - assert (n / 26 = m / 26)
      by (apply (alpha_char_injective uppercase); unfold alpha_char; congruence).
    assert (n mod 26 = m mod 26)
      by (apply (alpha_char_injective uppercase); unfold alpha_char; congruence).
    div_lia.
Qed.

Lemma alpha_label_nonempty (uppercase : bool) (n : Z) :
  alpha_label uppercase n <> "".
Proof.
  unfold alpha_label. destruct (n / 26 =? 0); discriminate.
Qed.

(** *** Roman numerals read back *)

Lemma numeral_value_bound (c : ascii) : 0 <= numeral_value c <= 1000.
Proof.
  unfold numeral_value.
  repeat match goal with
    | |- context [Ascii.eqb c ?x] => destruct (Ascii.eqb c x)
    end; lia.
Qed.

Lemma roman_value_M (s : string) :
  roman_value ("M" ++ s) = 1000 + roman_value s.
Proof.
  destruct s as [|c rest]; [reflexivity|].
  change (roman_value ("M" ++ String c rest))
    with (if (1000 <? numeral_value c)%Z
          then roman_value (String c rest) - 1000
          else 1000 + roman_value (String c rest)).
  pose proof (numeral_value_bound c).
  destruct (1000 <? numeral_value c)%Z eqn:E; [lia | reflexivity].
Qed.

Lemma roman_numeral_M (n : Z) :
  1000 <= n -> roman_numeral n = "M" ++ roman_numeral (n - 1000).
Proof.
  intros Hn. unfold roman_numeral.
  destruct (Z.to_nat n) as [|k] eqn:Ek; [lia|].
  cbn [greedy]. unfold greedy_pick at 1. cbn [roman_table find snd].
  destruct (1000 <=? n)%Z eqn:E; [|lia].
  f_equal. apply greedy_steps; [apply roman_table_positive | lia | lia].
Qed.

Lemma roman_value_below_1000 (n : Z) :
  0 <= n < 1000 -> roman_value (roman_numeral n) = n.
Proof.
  intros Hn.
  assert (Hall : forallb
                   (fun k => (roman_value (roman_numeral (Z.of_nat k))
                              =? Z.of_nat k)%Z)
                   (seq 0 1000) = true) by (vm_compute; reflexivity).
  rewrite forallb_forall in Hall.
  specialize (Hall (Z.to_nat n)). rewrite Z2Nat.id in Hall by lia.
  apply Z.eqb_eq, Hall, in_seq. lia.
Qed.

(** Read back, the greedy numeral of [n] is [n]. *)
Lemma roman_value_numeral (n : Z) :
  0 <= n -> roman_value (roman_numeral n) = n.
Proof.
  intros Hn.
  remember (Z.to_nat (n / 1000)) as thousands eqn:Et.
  revert n Hn Et.
  induction thousands as [|thousands IH]; intros n Hn Et.
  - apply roman_value_below_1000. div_lia.
  - assert (1000 <= n) by div_lia.
    rewrite roman_numeral_M, roman_value_M by assumption.
    rewrite IH; [lia | lia | div_lia].
Qed.

Lemma roman_numeral_nonempty (n : Z) : 1 <= n -> roman_numeral n <> "".
Proof.
  intros Hn H. apply (f_equal roman_value) in H.
  rewrite roman_value_numeral in H by lia. simpl in H. lia.
Qed.

(** *** What the styles return *)

Lemma label_numeric (fuel : nat) (index startNumber : Z) :
  label fuel index Numeric startNumber "" = Returns (str (index + 1)).
Proof. reflexivity. Qed.

Lemma label_numeric02 (fuel : nat) (index startNumber : Z) :
  label fuel index Numeric02 startNumber ""
  = Returns (zfill 2 (str (index + 1))).
Proof. reflexivity. Qed.

Lemma label_numeric003 (fuel : nat) (index startNumber : Z) :
  label fuel index Numeric003 startNumber ""
  = Returns (zfill 3 (str (index + 1))).
Proof. reflexivity. Qed.

Lemma label_prefixed (fuel : nat) (index startNumber : Z) :
  label fuel index Prefixed startNumber "" = Returns ("L" ++ str index).
Proof. reflexivity. Qed.

Lemma label_lower (fuel : nat) (index startNumber : Z) :
  0 <= index < 676 ->
  label fuel index LowerAlpha startNumber ""
  = Returns (alpha_label false index).
Proof.
  intros H. apply getNumber_lower;
    [apply (label_plain index LowerAlpha) | exact H].
Qed.

Lemma label_upper (fuel : nat) (index startNumber : Z) :
  0 <= index < 676 ->
  label fuel index UpperAlpha startNumber ""
  = Returns (alpha_label true index).
Proof.
  intros H. apply getNumber_upper;
    [apply (label_plain index UpperAlpha) | exact H].
Qed.

Lemma label_roman_numeral (fuel : nat) (index startNumber : Z) :
  (Z.to_nat (index + 1) <= fuel)%nat ->
  label fuel index Roman startNumber ""
  = Returns (roman_numeral (index + 1)).
Proof.
  intros H. apply getNumber_roman;
    [apply (label_plain index Roman) | exact H].
Qed.

Lemma zfill_nonempty (width : nat) (s : string) :
  s <> "" -> zfill width s <> "".
Proof.
  intros Hs H. apply (f_equal String.length) in H.
  rewrite zfill_length in H. destruct s; [now elim Hs | simpl in H; lia].
Qed.

(** X1: with no custom number, every style returns a non-empty label for
    every index it can label (from 0 on, below 676 for the alphabetic
    styles): no exception and no [None]. *)
Theorem label_total (fuel : nat) (index : Z) (style : LabelStyle)
    (startNumber : Z) :
  labelled style index ->
  (Z.to_nat (index + 1) <= fuel)%nat ->
  exists s : string,
    label fuel index style startNumber "" = Returns s /\ s <> "".
Proof.
  intros [H0 Halpha] Hfuel. destruct style.
  - exists (str (index + 1)). split; [reflexivity | apply str_nonempty].
  - exists (zfill 2 (str (index + 1))).
    split; [reflexivity | apply zfill_nonempty, str_nonempty].
  - exists (zfill 3 (str (index + 1))).
    split; [reflexivity | apply zfill_nonempty, str_nonempty].
  - exists (alpha_label true index).
    split; [apply label_upper | apply alpha_label_nonempty].
    split; [exact H0 | now apply Halpha].
  - exists (alpha_label false index).
    split; [apply label_lower | apply alpha_label_nonempty].
    split; [exact H0 | now apply Halpha].
  - exists (roman_numeral (index + 1)).
    split; [now apply label_roman_numeral | apply roman_numeral_nonempty; lia].
  - exists ("L" ++ str index). split; [reflexivity | discriminate].
Qed.

Lemma label_total_witness :
  labelled UpperAlpha 675 /\ (Z.to_nat (675 + 1) <= 676)%nat
  /\ exists s : string, label 676 675 UpperAlpha 1 "" = Returns s /\ s <> "".
Proof.
  assert (H : labelled UpperAlpha 675) by (split; [lia | intros _; lia]).
  split; [exact H | split; [lia|]].
  apply (label_total 676 675 UpperAlpha 1 H). lia.
Defined.

(** X2: the three numeric styles write [index + 1] in decimal, on at
    least 1, 2 and 3 characters, and the prefixed style writes "L" before
    [index] itself: read back, the digits give the number. *)
Theorem label_decimal (fuel : nat) (index startNumber : Z) :
  (exists s, label fuel index Numeric startNumber "" = Returns s
             /\ decimal_value s = Some (index + 1)
             /\ (1 <= String.length s)%nat)
  /\ (exists s, label fuel index Numeric02 startNumber "" = Returns s
                /\ decimal_value s = Some (index + 1)
                /\ (2 <= String.length s)%nat)
  /\ (exists s, label fuel index Numeric003 startNumber "" = Returns s
                /\ decimal_value s = Some (index + 1)
                /\ (3 <= String.length s)%nat)
  /\ (exists s, label fuel index Prefixed startNumber "" = Returns ("L" ++ s)
                /\ decimal_value s = Some index).
Proof.
  repeat split.
  - exists (str (index + 1)). repeat split; [apply decimal_value_str|].
    pose proof (str_nonempty (index + 1)).
    destruct (str (index + 1)); [contradiction | simpl; lia].
  - exists (zfill 2 (str (index + 1))).
    repeat split; [apply decimal_value_zfill | rewrite zfill_length; lia].
  - exists (zfill 3 (str (index + 1))).
    repeat split; [apply decimal_value_zfill | rewrite zfill_length; lia].
  - exists (str index). split; [reflexivity | apply decimal_value_str].
Qed.

(** X3: the Roman label of an index from 0 on, read back by adding and
    subtracting the values of its letters, is [index + 1]. *)
Theorem label_roman_reads_back (fuel : nat) (index startNumber : Z) :
  0 <= index ->
  (Z.to_nat (index + 1) <= fuel)%nat ->
  exists s : string,
    label fuel index Roman startNumber "" = Returns s
    /\ roman_value s = index + 1.
Proof.
  intros H0 Hfuel. exists (roman_numeral (index + 1)).
  split; [now apply label_roman_numeral | apply roman_value_numeral; lia].
Qed.

Lemma label_roman_reads_back_witness :
  0 <= 2023 /\ (Z.to_nat (2023 + 1) <= 2024)%nat
  /\ exists s : string,
       label 2024 2023 Roman 1 "" = Returns s /\ roman_value s = 2024.
Proof.
  split; [lia | split; [lia|]].
  apply (label_roman_reads_back 2024 2023 1); lia.
Defined.

(** X4: within one style, two different indices that the style can label
    never get the same label. *)
Theorem label_injective (fuel : nat) (style : LabelStyle)
    (n m startNumber : Z) :
  labelled style n -> labelled style m ->
  (Z.to_nat (n + 1) <= fuel)%nat -> (Z.to_nat (m + 1) <= fuel)%nat ->
  n <> m ->
  label fuel n style startNumber "" <> label fuel m style startNumber "".
Proof.
  intros [Hn Han] [Hm Ham] Hfn Hfm Hne H. apply Hne. destruct style.
  - rewrite !label_numeric in H. inversion H as [E].
    apply str_injective in E. lia.
  - rewrite !label_numeric02 in H. inversion H as [E].
    apply (f_equal decimal_value) in E.
    rewrite !decimal_value_zfill in E. inversion E. lia.
  - rewrite !label_numeric003 in H. inversion H as [E].
    apply (f_equal decimal_value) in E.
    rewrite !decimal_value_zfill in E. inversion E. lia.
  - rewrite !label_upper in H by (split; auto). inversion H as [E].
    apply alpha_label_injective in E; auto.
  - rewrite !label_lower in H by (split; auto). inversion H as [E].
    apply alpha_label_injective in E; auto.
  - rewrite !label_roman_numeral in H by assumption. inversion H as [E].
    apply (f_equal roman_value) in E.
    rewrite !roman_value_numeral in E by lia. lia.
  - rewrite !label_prefixed in H. inversion H as [E].
    now apply str_injective in E.
Qed.

Lemma label_injective_witness :
  labelled Roman 3 /\ labelled Roman 5 /\ 3 <> 5
  /\ label 6 3 Roman 1 "" <> label 6 5 Roman 1 "".
Proof.
  assert (H3 : labelled Roman 3) by (split; [lia | discriminate]).
  assert (H5 : labelled Roman 5) by (split; [lia | discriminate]).
  repeat split; try exact (proj1 H3); try exact (proj2 H3);
    try exact (proj1 H5); try exact (proj2 H5); try lia.
  apply (label_injective 6 Roman 3 5 1 H3 H5); lia.
Defined.

(** * More on the geometry *)

Open Scope nat_scope.

Lemma in_flat_map_seq {A : Type} (f : nat -> list A) (n : nat) (a : A) :
  In a (flat_map f (seq 0 n)) -> exists i, i < n /\ In a (f i).
Proof.
  intros H. apply in_flat_map in H as (i & Hi & Ha).
  apply in_seq in Hi. exists i. split; [lia | exact Ha].
Qed.

(** *** What [execute] raises *)

Section Raises.

Context {F : Type} {ops : PyFloat F} {laws : PyFloatLaws F}.

(** The loop raises nothing but the [ValueError] of an infinite angle. *)
Lemma execute_geoms_raises (distances angles : list F) (length : F)
    (limit : option F) (e : exn) :
  execute_geoms distances angles length limit = Raise e ->
  e = ValueError
  /\ distances <> [] /\ List.length distances = List.length angles
  /\ fbool length = true
  /\ exists (i : nat) (a : F),
       nth_error angles i = Some a /\ math_isinf (math_radians a) = true.
Proof.
  intros Hrun.
  destruct distances as [|d distances];
    [rewrite execute_geoms_degenerate in Hrun by (now left);
     discriminate Hrun|].
  destruct (fbool length) eqn:Hlength;
    [|rewrite execute_geoms_degenerate in Hrun by (right; now left);
      discriminate Hrun].
  destruct (Nat.eq_dec (List.length (d :: distances)) (List.length angles))
    as [Hlen | Hlen];
    [|rewrite execute_geoms_degenerate in Hrun by (right; now right);
      discriminate Hrun].
  destruct (no_infinite_angle_dec angles) as [Hfin | (i & a & Ha & Hinf)].
  - rewrite execute_geoms_closed in Hrun by (assumption || discriminate).
    discriminate Hrun.
  - rewrite (execute_geoms_infinite _ _ _ _ i a) in Hrun
      by (assumption || discriminate).
    inversion Hrun. repeat split; try assumption; try discriminate.
    now exists i, a.
Qed.

End Raises.

(** X5: [execute] raises exactly when its loop runs (distances not empty,
    as many angles, a truthy length) and meets an angle that is infinite in
    radians, and what it raises is the [ValueError] of [math.cos]: the
    test of the lengths keeps the indices of the loop in range, and the
    guard on the cosine keeps the division from a zero divisor.  The calls
    of the host ([Vector], [Part.LineSegment], [Part.Compound]) are taken
    to return. *)
Theorem execute_raises_only (F : Type) (ops : PyFloat F)
    (laws : PyFloatLaws F) (obj : AxisObject F) (e : exn) :
  execute obj = Raise e
  <-> e = ValueError
      /\ distances_of obj <> []
      /\ List.length (distances_of obj) = List.length (angles_of obj)
      /\ fbool (Length obj) = true
      /\ exists (i : nat) (a : F),
           nth_error (angles_of obj) i = Some a
           /\ math_isinf (math_radians a) = true.
Proof.
  split.
  - intros Hrun. unfold execute in Hrun. cbv zeta in Hrun.
    destruct (execute_geoms (distances_of obj) (angles_of obj) (Length obj)
                (Limit obj)) as [geoms | err] eqn:Hgeoms.
    + cbn [bind] in Hrun. destruct (list_bool geoms); discriminate.
    + cbn [bind] in Hrun. inversion Hrun; subst err.
      now apply execute_geoms_raises with (limit := Limit obj).
  - intros (-> & Hne & Hlen & Hlength & i & a & Ha & Hinf).
    unfold execute. cbv zeta.
    now rewrite (execute_geoms_infinite _ _ _ _ i a Hne Hlen Hlength Ha Hinf).
Qed.

Lemma execute_raises_only_witness :
  execute (ops := cpython) infinite_axis = Raise ValueError.
Proof.
  apply (proj2 (execute_raises_only float cpython
                  (binary64_laws glibc_sin glibc_cos) infinite_axis
                  ValueError)).
  split; [reflexivity|]. split; [discriminate|].
  split; [reflexivity|]. split; [reflexivity|].
  exists 1, infinity. split; reflexivity.
Defined.

(** *** The plane of the axes, in binary64 *)

Lemma binary64_finite_cases (x : float) :
  PrimFloat.is_finite x = true ->
  (exists s, Prim2SF x = S754_zero s)
  \/ (exists s m e, Prim2SF x = S754_finite s m e).
Proof.
  unfold PrimFloat.is_finite, PrimFloat.is_nan, PrimFloat.is_infinity.
  rewrite !eqb_spec, abs_spec, prim_infinity.
  destruct (Prim2SF x) as [s | [] | | s m e]; simpl; intros H;
    try discriminate.
  - left. now exists s.
  - right. now exists s, m, e.
Qed.

(** Zero times a finite number, added to zero, is the zero of positive
    sign. *)
Lemma binary64_zero_plane (x : float) :
  PrimFloat.is_finite x = true -> (0 + 0 * x = 0)%float.
Proof.
  intros H. apply Prim2SF_inj. rewrite add_spec, mul_spec, prim_zero.
  destruct (binary64_finite_cases x H) as [(s & ->) | (s & m & e & ->)];
    destruct s; reflexivity.
Qed.

Lemma binary64_zero_plane_opp (x : float) :
  PrimFloat.is_finite x = true -> (0 + 0 * - x = 0)%float.
Proof.
  intros H. apply Prim2SF_inj.
  rewrite add_spec, mul_spec, opp_spec, prim_zero.
  destruct (binary64_finite_cases x H) as [(s & ->) | (s & m & e & ->)];
    destruct s; reflexivity.
Qed.

(** X6: in binary64, whatever the sine and the cosine of the C library,
    every segment that [generate] returns, full line or stub, has both end
    points in the plane z = 0, as long as the limit and the effective
    length of every axis are finite: no overflow and no NaN. *)
Theorem segments_planar (sin64 cos64 : float -> float)
    (distances angles : list float) (length limit : float) :
  distances <> [] ->
  List.length distances = List.length angles ->
  no_infinite_angle (ops := binary64_float sin64 cos64) angles ->
  fbool (PyFloat := binary64_float sin64 cos64) length = true ->
  PrimFloat.is_finite limit = true ->
  (forall a : float,
      In a angles ->
      PrimFloat.is_finite
        (effective_length (ops := binary64_float sin64 cos64) length a)
      = true) ->
  exists geoms : list (Edge float),
    generate (ops := binary64_float sin64 cos64)
      distances angles length limit = Ok geoms
    /\ forall e : Edge float,
         In e geoms ->
         vz (startPoint e) = 0%float /\ vz (endPoint e) = 0%float.
Proof.
  intros Hne Hlen Hfin Hlength Hlimit Hln. unfold generate.
  rewrite (execute_geoms_closed (laws := binary64_laws sin64 cos64))
    by assumption.
  eexists. split; [reflexivity|].
  intros e He. apply in_flat_map_seq in He as (i & Hi & He).
  assert (Hi' : PrimFloat.is_finite
                  (effective_length (ops := binary64_float sin64 cos64)
                     length
                     (angle_at (ops := binary64_float sin64 cos64) angles i))
                = true).
  { apply Hln. unfold angle_at. apply nth_In. lia. }
  pose proof (binary64_zero_plane _ Hi') as Hend.
  pose proof (binary64_zero_plane _ Hlimit) as Hstub.
  pose proof (binary64_zero_plane_opp _ Hlimit) as Hback.
  unfold axis_segments_at, axis_segments, stubs, full_line, end_point,
    base_point, direction, vadd, vscale in He.
  cbn [vx vy vz limit_value] in He.
  destruct (limit_bool (Some limit)); cbn [In] in He;
    repeat destruct He as [<- | He]; try destruct He;
    cbn [startPoint endPoint vz]; split;
    try reflexivity; try exact Hend; try exact Hstub.
  change (((0 + 0 * effective_length (ops := binary64_float sin64 cos64)
                     length
                     (angle_at (ops := binary64_float sin64 cos64) angles i))
           + 0 * - limit = 0)%float).
  rewrite Hend. exact Hback.
Qed.

Lemma segments_planar_witness :
  exists geoms : list (Edge float),
    generate (ops := cpython) [1%float] [20%float] 3000%float 500%float
    = Ok geoms
    /\ forall e : Edge float,
         In e geoms ->
         vz (startPoint e) = 0%float /\ vz (endPoint e) = 0%float.
Proof.
  apply (segments_planar glibc_sin glibc_cos
           [1%float] [20%float] 3000%float 500%float);
    try reflexivity.
  - discriminate.
  - constructor; [reflexivity | constructor].
  - intros a [<- | []]. reflexivity.
Defined.

(** * The axis object seen from outside *)

Lemma exec_for_append {A B : Type} (f : A -> exec B) (l : list A) :
  forall acc : list B,
    exec_for (fun acc a => b <~ f a ;; Finished (acc ++ [b])%list) l acc
    = (bs <~ exec_map f l ;; Finished (acc ++ bs)%list).
Proof.
  induction l as [|a l IH]; intros acc; cbn [exec_for exec_map exec_bind].
  - now rewrite app_nil_r.
  - destruct (f a) as [b | e |]; cbn [exec_bind]; try reflexivity.
    rewrite IH. destruct (exec_map f l) as [bs | e |]; cbn [exec_bind];
      try reflexivity.
    now rewrite <- app_assoc.
Qed.

Lemma exec_map_finished {A B : Type} (f : A -> B) (l : list A) :
  exec_map (fun a => Finished (f a)) l = Finished (map f l).
Proof.
  induction l as [|a l IH]; cbn [exec_map map exec_bind]; [reflexivity|].
  now rewrite IH.
Qed.

Lemma exec_map_ext {A B : Type} (f g : A -> exec B) (l : list A) :
  (forall a, In a l -> f a = g a) -> exec_map f l = exec_map g l.
Proof.
  induction l as [|a l IH]; intros H; cbn [exec_map]; [reflexivity|].
  rewrite (H a) by now left.
  rewrite IH by (intros b Hb; apply H; now right). reflexivity.
Qed.

Section Outside.

Context {F : Type} {ops : PyFloat F}.

Variable inverse_multVec : placement F -> Vector F -> Vector F.

Lemma first_vertex (e : Edge F) : list_index (Vertexes e) 0 = Ok (startPoint e).
Proof. reflexivity. Qed.

Lemma last_vertex (e : Edge F) :
  list_index (Vertexes e) (-1) = Ok (endPoint e).
Proof. reflexivity. Qed.

Lemma getPoints_starts (obj : AxisObject F) :
  getPoints obj = Finished (map startPoint (Edges (Shape obj))).
Proof.
  unfold getPoints.
  rewrite (exec_for_append (fun e => lift (list_index (Vertexes e) 0))).
  rewrite (exec_map_ext _ (fun e => Finished (startPoint e)))
    by (intros e _; now rewrite first_vertex).
  now rewrite exec_map_finished.
Qed.

Context {laws : PyFloatLaws F}.

Lemma axis_segments_nonempty (limit : option F) (p1 dir p2 : Vector F) :
  axis_segments limit p1 dir p2 <> [].
Proof. unfold axis_segments. destruct (limit_bool limit); discriminate. Qed.

(** What [execute] leaves in the object, no angle being infinite. *)
Lemma execute_computable (obj : AxisObject F) (distances angles : list F) :
  computable obj distances angles ->
  no_infinite_angle angles ->
  execute obj
  = Ok (set_Placement (Placement obj)
          (set_Shape
             (Compound
                (flat_map
                   (axis_segments_at distances angles (Length obj) (Limit obj))
                   (seq 0 (List.length distances))))
             obj),
        ["Shape"; "Placement"]%string).
Proof.
  intros (Hd & Ha & Hne & Hlen & Hlength) Hfin.
  unfold execute, distances_of, angles_of. rewrite Hd, Ha. cbv zeta.
  rewrite execute_geoms_closed by assumption. cbn [bind].
  destruct distances as [|d distances]; [contradiction|].
  cbn [List.length seq flat_map].
  pose proof (axis_segments_nonempty (Limit obj)
                (base_point (d :: distances) 0)
                (direction (angle_at angles 0))
                (end_point (d :: distances) angles (Length obj) 0)) as Hseg.
  unfold axis_segments_at at 1.
  destruct (axis_segments _ _ _ _); [contradiction | reflexivity].
Qed.

Lemma edges_after_execute (obj obj' : AxisObject F)
    (distances angles : list F) (assigned : list string) :
  computable obj distances angles ->
  execute obj = Ok (obj', assigned) ->
  Edges (Shape obj')
  = flat_map (axis_segments_at distances angles (Length obj) (Limit obj))
      (seq 0 (List.length distances))
  /\ Limit obj' = Limit obj /\ Distances obj' = Distances obj
  /\ Placement obj' = Placement obj.
Proof.
  intros Hc Hrun.
  assert (Hfin : no_infinite_angle angles).
  { destruct Hc as (Hd & Ha & Hne & Hlen & Hlength).
    unfold execute, distances_of, angles_of in Hrun.
    rewrite Hd, Ha in Hrun. cbv zeta in Hrun.
    destruct (execute_geoms distances angles (Length obj) (Limit obj))
      as [geoms | err] eqn:Hgeoms; [|discriminate Hrun].
    now destruct (execute_geoms_ok _ _ _ _ _ Hne Hlen Hlength Hgeoms). }
  rewrite (execute_computable obj _ _ Hc Hfin) in Hrun.
  inversion Hrun; subst. repeat split.
Qed.

End Outside.

Lemma two_axes_computable (limit : R) :
  computable (two_axes limit) [0%R; 4000%R] [0%R; 90%R].
Proof.
  repeat split; try discriminate. apply real_fbool_true.
  cbn [Length two_axes]. lra.
Qed.

Section OutsideClosed.

Context {F : Type} {ops : PyFloat F} {laws : PyFloatLaws F}.

Variable inverse_multVec : placement F -> Vector F -> Vector F.

(** X7: after [execute] on an object whose loop runs, [getPoints] returns
    the base point of every axis, in order; when a limit splits the axes
    the far end point of each axis follows its base point. *)
Theorem getPoints_after_execute (obj obj' : AxisObject F)
    (distances angles : list F) (assigned : list string) :
  computable obj distances angles ->
  execute obj = Ok (obj', assigned) ->
  getPoints obj'
  = Finished
      (flat_map
         (fun i =>
            if limit_bool (Limit obj)
            then [base_point distances i;
                  end_point distances angles (Length obj) i]
            else [base_point distances i])
         (seq 0 (List.length distances))).
Proof.
  intros Hc Hrun.
  destruct (edges_after_execute obj obj' _ _ _ Hc Hrun) as (He & _).
  rewrite getPoints_starts, He. clear He. f_equal.
  induction (seq 0 (List.length distances)) as [|i l IH];
    cbn [flat_map map]; [reflexivity|].
  rewrite map_app, IH. f_equal.
  unfold axis_segments_at, axis_segments, stubs, full_line.
  destruct (limit_bool (Limit obj)); reflexivity.
Qed.

End OutsideClosed.

Lemma getPoints_after_execute_witness :
  exists (obj' : AxisObject R) (assigned : list string),
    execute (two_axes 500) = Ok (obj', assigned)
    /\ getPoints obj'
       = Finished [mkVector 0%R 0%R 0%R; mkVector 0%R 3000%R 0%R;
                   mkVector 4000%R 0%R 0%R; mkVector 304000%R 0%R 0%R].
Proof.
  pose proof (two_axes_computable 500) as Hc.
  pose proof (execute_computable _ _ _ Hc (real_no_infinite_angle _)) as Hrun.
  eexists. eexists. split; [exact Hrun|].
  rewrite (getPoints_after_execute _ _ _ _ _ Hc Hrun).
  cbn [two_axes Limit Length]. real_axes.
  apply f_equal. repeat (apply f_equal2; [apply vector_eq; lra|]).
  reflexivity.
Defined.

Section AxisData.

Context {F : Type} {ops : PyFloat F}.

Variable inverse_multVec : placement F -> Vector F -> Vector F.

Lemma getAxisData_loop (fuel : nat) (viewObject : option ViewObject)
    (edges : list (Edge F)) :
  forall (start : nat) (data : list (Vector F * Vector F * option string)),
    exec_for
      (fun (st : list (Vector F * Vector F * option string) * Z) e =>
         let '(data, num) := st in
         first <~ lift (list_index (Vertexes e) 0) ;;
         last <~ lift (list_index (Vertexes e) (-1)) ;;
         number <~ match viewObject with
                   | Some vobj => call_getNumber fuel vobj num
                   | None => Finished (Some (str num))
                   end ;;
         Finished ((data ++ [(first, last, number)])%list, (num + 1)%Z))
      edges (data, Z.of_nat start)
    = (entries <~ exec_map
                    (fun ke =>
                       number <~ edge_number fuel viewObject (fst ke) ;;
                       Finished (startPoint (snd ke), endPoint (snd ke), number))
                    (combine (seq start (List.length edges)) edges) ;;
       Finished ((data ++ entries)%list,
                 Z.of_nat (start + List.length edges))).
Proof.
  induction edges as [|e edges IH]; intros start data;
    cbn [exec_for exec_map List.length seq combine exec_bind].
  - now rewrite app_nil_r, Nat.add_0_r.
  - rewrite first_vertex, last_vertex. cbn [lift exec_bind fst snd].
    unfold edge_number at 1.
    destruct viewObject as [vobj|].
    + destruct (call_getNumber fuel vobj (Z.of_nat start)) as [number | err |];
        cbn [exec_bind]; try reflexivity.
      replace (Z.of_nat start + 1)%Z with (Z.of_nat (S start)) by lia.
      rewrite IH.
      destruct (exec_map _ _) as [entries | err |]; cbn [exec_bind];
        try reflexivity.
      rewrite <- app_assoc, Nat.add_succ_r. reflexivity.
    + cbn [exec_bind].
      replace (Z.of_nat start + 1)%Z with (Z.of_nat (S start)) by lia.
      rewrite IH.
      destruct (exec_map _ _) as [entries | err |]; cbn [exec_bind];
        try reflexivity.
      rewrite <- app_assoc, Nat.add_succ_r. reflexivity.
Qed.

(** X8: [getAxisData] has one entry for every edge of the shape, with the
    two end points of the edge and the number of the index of the edge:
    [getNumber] at that index with a view object, else the index itself
    in decimal, counted from 0.  An exception of [getNumber] at some edge
    is the exception of the call. *)
Theorem getAxisData_by_edge (fuel : nat) (viewObject : option ViewObject)
    (obj : AxisObject F) :
  getAxisData fuel viewObject obj
  = exec_map
      (fun ke : nat * Edge F =>
         number <~ edge_number fuel viewObject (fst ke) ;;
         Finished (startPoint (snd ke), endPoint (snd ke), number))
      (combine (seq 0 (List.length (Edges (Shape obj))))
         (Edges (Shape obj))).
Proof.
  unfold getAxisData. cbv zeta.
  pose proof (getAxisData_loop fuel viewObject (Edges (Shape obj)) 0 [])
    as Hloop.
  cbn [Z.of_nat] in Hloop. rewrite Hloop.
  destruct (exec_map _ _) as [entries | err |]; reflexivity.
Qed.

Lemma updateData_inner (pl : placement F) (e : Edge F)
    (verts : list (Vector F)) (vset : list Z) (i : Z) :
  fold_left
    (fun (st : list (Vector F) * list Z * Z) v =>
       let '(verts, vset, i) := st in
       ((verts ++ [inverse_multVec pl v])%list, (vset ++ [i])%list, (i + 1)%Z))
    (Vertexes e) (verts, vset, i)
  = ((verts ++ [inverse_multVec pl (startPoint e);
                inverse_multVec pl (endPoint e)])%list,
     (vset ++ [i; (i + 1)%Z])%list, (i + 2)%Z).
Proof.
  cbn [Vertexes fold_left]. rewrite <- !app_assoc.
  replace (i + 1 + 1)%Z with (i + 2)%Z by lia. reflexivity.
Qed.

Lemma updateData_outer (pl : placement F) (edges : list (Edge F)) :
  forall (start : nat) (verts : list (Vector F)) (vset : list Z),
    fold_left
      (fun (st : list (Vector F) * list Z * Z) e =>
         let '(verts, vset, i) :=
           fold_left
             (fun (st : list (Vector F) * list Z * Z) v =>
                let '(verts, vset, i) := st in
                ((verts ++ [inverse_multVec pl v])%list,
                 (vset ++ [i])%list, (i + 1)%Z))
             (Vertexes e) st in
         (verts, (vset ++ [(-1)%Z])%list, i))
      edges (verts, vset, (2 * Z.of_nat start)%Z)
    = ((verts
        ++ flat_map
             (fun e => [inverse_multVec pl (startPoint e);
                        inverse_multVec pl (endPoint e)])
             edges)%list,
       (vset
        ++ flat_map
             (fun k => [(2 * Z.of_nat k)%Z; (2 * Z.of_nat k + 1)%Z; (-1)%Z])
             (seq start (List.length edges)))%list,
       (2 * Z.of_nat (start + List.length edges))%Z).
Proof.
  induction edges as [|e edges IH]; intros start verts vset;
    cbn [fold_left flat_map List.length seq].
  - now rewrite !app_nil_r, Nat.add_0_r.
  - rewrite updateData_inner.
    replace (2 * Z.of_nat start + 2)%Z with (2 * Z.of_nat (S start))%Z by lia.
    rewrite IH. rewrite <- !app_assoc, Nat.add_succ_r. reflexivity.
Qed.

(** X9: for a shape with edges, [updateData] hands to the line set the two
    end points of every edge, moved by the inverse placement, and the index
    list 0, 1, -1, 2, 3, -1, ...: every index that is not the separator -1
    points at one of the points handed over. *)
Theorem updateData_indices (obj : AxisObject F) :
  Edges (Shape obj) <> [] ->
  exists (verts : list (Vector F)) (vset : list Z),
    updateData_Shape inverse_multVec obj = Some (verts, vset)
    /\ verts
       = flat_map
           (fun e => [inverse_multVec (Placement obj) (startPoint e);
                      inverse_multVec (Placement obj) (endPoint e)])
           (Edges (Shape obj))
    /\ vset
       = flat_map
           (fun k => [(2 * Z.of_nat k)%Z; (2 * Z.of_nat k + 1)%Z; (-1)%Z])
           (seq 0 (List.length (Edges (Shape obj))))
    /\ Forall
         (fun v => v = (-1)%Z \/ (0 <= v < Z.of_nat (List.length verts))%Z)
         vset.
Proof.
  intros Hne. unfold updateData_Shape.
  destruct (Edges (Shape obj)) as [|e edges] eqn:He; [contradiction|].
  rewrite <- He. clear Hne.
  pose proof (updateData_outer (Placement obj) (Edges (Shape obj)) 0 [] [])
    as Hloop.
  change (2 * Z.of_nat 0)%Z with 0%Z in Hloop. rewrite Hloop.
  cbn [app]. eexists. eexists. split; [reflexivity|].
  split; [reflexivity | split; [reflexivity|]].
  rewrite (flat_map_length_const _ 2) by reflexivity.
  apply Forall_forall. intros v Hv.
  apply in_flat_map in Hv as (k & Hk & Hv). apply in_seq in Hk.
  cbn [In] in Hv. destruct Hv as [<- | [<- | [<- | []]]]; [right | right | left];
    try reflexivity; lia.
Qed.

End AxisData.

Lemma updateData_indices_witness :
  Edges (Shape emptied_axis) <> []
  /\ exists (verts : list (Vector R)) (vset : list Z),
       updateData_Shape (fun _ p => p) emptied_axis = Some (verts, vset)
       /\ verts = [mkVector 0%R 0%R 0%R; mkVector 0%R 3000%R 0%R]
       /\ vset = [0%Z; 1%Z; (-1)%Z].
Proof.
  assert (Hne : Edges (Shape emptied_axis) <> []) by discriminate.
  split; [exact Hne|].
  destruct (updateData_indices (fun _ p => p) emptied_axis Hne)
    as (verts & vset & Hrun & Hverts & Hvset & _).
  exists verts, vset. repeat split; assumption.
Defined.

(** * The bubbles and their numbers *)

Lemma both_ends_positions (bubblePosition : option string) :
  both_ends bubblePosition = true ->
  bubble_positions bubblePosition = ["Start"; "End"]%string.
Proof.
  destruct bubblePosition as [bp|]; [|discriminate].
  unfold both_ends, bubble_positions. now intros ->.
Qed.

Lemma one_end_positions (bubblePosition : option string) :
  both_ends bubblePosition = false ->
  List.length (bubble_positions bubblePosition) <= 1.
Proof.
  destruct bubblePosition as [bp|]; [|intros _; simpl; lia].
  unfold both_ends, bubble_positions. intros ->.
  destruct (String.eqb bp "None"); simpl; lia.
Qed.

Lemma flat_map_nil {A B : Type} (l : list A) :
  flat_map (fun _ : A => @nil B) l = [].
Proof. induction l as [|a l IH]; simpl; [reflexivity | exact IH]. Qed.

Section Numbering.

Variable T : Type.
Variable fuel : nat.
Variable vobj : ViewObject.
Variable bubblePosition : option string.
Variable base : Z.

Lemma number_step_single (strings : list (option string)) (a : nat)
    (alt : bool) (t : T) :
  both_ends bubblePosition = false ->
  number_step fuel vobj bubblePosition
    (strings, (base + Z.of_nat a)%Z, alt) t
  = (s <~ call_getNumber fuel vobj (base + Z.of_nat a) ;;
     Finished ((strings ++ [s])%list, (base + Z.of_nat (S a))%Z, negb alt)).
Proof.
  intros Hb. unfold number_step.
  destruct (call_getNumber fuel vobj (base + Z.of_nat a)) as [s | e |];
    cbn [exec_bind]; try reflexivity.
  replace (base + Z.of_nat a + 1)%Z with (base + Z.of_nat (S a))%Z by lia.
  destruct bubblePosition as [bp|]; [|reflexivity].
  unfold both_ends in Hb. now rewrite Hb.
Qed.

Lemma number_step_paired (strings : list (option string)) (a : nat)
    (alt : bool) (t : T) :
  both_ends bubblePosition = true ->
  number_step fuel vobj bubblePosition
    (strings, (base + Z.of_nat a)%Z, alt) t
  = (s <~ call_getNumber fuel vobj (base + Z.of_nat a) ;;
     Finished ((strings ++ [s])%list,
               (if alt then base + Z.of_nat (S a) else base + Z.of_nat a)%Z,
               negb alt)).
Proof.
  intros Hb. unfold number_step.
  destruct (call_getNumber fuel vobj (base + Z.of_nat a)) as [s | e |];
    cbn [exec_bind]; try reflexivity.
  destruct bubblePosition as [bp|]; [|discriminate].
  unfold both_ends in Hb. rewrite Hb.
  destruct alt; cbn [negb].
  - now replace (base + Z.of_nat a + 1)%Z
      with (base + Z.of_nat (S a))%Z by lia.
  - now replace (base + Z.of_nat a + 1 - 1)%Z
      with (base + Z.of_nat a)%Z by lia.
Qed.

Lemma number_loop_single :
  both_ends bubblePosition = false ->
  forall (bubbletexts : list T) (a : nat) (strings : list (option string))
         (alt : bool),
  exists alt' : bool,
    exec_for (number_step fuel vobj bubblePosition) bubbletexts
      (strings, (base + Z.of_nat a)%Z, alt)
    = (numbers <~ exec_map
                    (fun i => call_getNumber fuel vobj (base + Z.of_nat i))
                    (seq a (List.length bubbletexts)) ;;
       Finished ((strings ++ numbers)%list,
                 (base + Z.of_nat (a + List.length bubbletexts))%Z, alt')).
Proof.
  intros Hb. induction bubbletexts as [|t rest IH]; intros a strings alt;
    cbn [exec_for List.length seq exec_map exec_bind].
  - exists alt. now rewrite app_nil_r, Nat.add_0_r.
  - rewrite (number_step_single _ _ _ _ Hb).
    destruct (call_getNumber fuel vobj (base + Z.of_nat a)) as [s | e |];
      cbn [exec_bind]; try (now exists alt).
    destruct (IH (S a) (strings ++ [s])%list (negb alt)) as (alt' & Hrest).
    exists alt'. rewrite Hrest.
    destruct (exec_map _ _) as [numbers | e |]; cbn [exec_bind];
      try reflexivity.
    now rewrite <- app_assoc, Nat.add_succ_r.
Qed.

Lemma number_loop_paired :
  both_ends bubblePosition = true ->
  forall (n a : nat) (bubbletexts : list T) (strings : list (option string)),
    List.length bubbletexts = 2 * n ->
    exec_for (number_step fuel vobj bubblePosition) bubbletexts
      (strings, (base + Z.of_nat a)%Z, false)
    = (numbers <~ exec_map
                    (fun i => call_getNumber fuel vobj (base + Z.of_nat i))
                    (flat_map (fun i => [i; i]) (seq a n)) ;;
       Finished ((strings ++ numbers)%list, (base + Z.of_nat (a + n))%Z,
                 false)).
Proof.
  intros Hb. induction n as [|n IH]; intros a bubbletexts strings Hlen.
  - destruct bubbletexts; [|discriminate].
    cbn [exec_for seq flat_map exec_map exec_bind].
    now rewrite app_nil_r, Nat.add_0_r.
  - destruct bubbletexts as [|t1 [|t2 rest]]; try (simpl in Hlen; lia).
    cbn [exec_for seq flat_map app exec_map].
    rewrite (number_step_paired _ _ _ _ Hb).
    destruct (call_getNumber fuel vobj (base + Z.of_nat a)) as [s | e |]
      eqn:Hcall; cbn [exec_bind negb]; try reflexivity.
    rewrite (number_step_paired _ _ _ _ Hb), Hcall. cbn [exec_bind negb].
    rewrite IH by (simpl in Hlen; lia).
    destruct (exec_map _ _) as [numbers | e |]; cbn [exec_bind];
      try reflexivity.
    now rewrite <- !app_assoc, Nat.add_succ_r.
Qed.

End Numbering.

(** X10: when the list of bubble texts holds, for each of [n] axes, one
    text per end that gets a bubble, the numbering loop gives to every text
    of the axis [i] the number of the index [first_number + i], where
    [first_number] is [StartNumber - 1] for a start number above 1 and 0
    otherwise: the two bubbles of an axis show the same number.  An
    exception of [getNumber] is the exception of the loop. *)
Theorem number_bubbles_by_axis (T : Type) (fuel : nat) (vobj : ViewObject)
    (bubblePosition : option string) (bubbletexts : list T) (n : nat) :
  List.length bubbletexts
  = n * List.length (bubble_positions bubblePosition) ->
  number_bubbles fuel vobj bubblePosition bubbletexts
  = exec_map
      (fun i => call_getNumber fuel vobj (first_number vobj + Z.of_nat i))
      (flat_map
         (fun i => repeat i (List.length (bubble_positions bubblePosition)))
         (seq 0 n)).
Proof.
  intros Hlen. unfold number_bubbles. cbv zeta.
  change (match StartNumber vobj with
          | Some start => if (start >? 1)%Z then (start - 1)%Z else 0%Z
          | None => 0%Z
          end) with (first_number vobj).
  replace (first_number vobj) with (first_number vobj + Z.of_nat 0)%Z at 1
    by (simpl; lia).
  destruct (both_ends bubblePosition) eqn:Hb.
  - rewrite (both_ends_positions _ Hb) in *. cbn [List.length repeat] in *.
    rewrite (number_loop_paired T fuel vobj bubblePosition _ Hb n 0
               bubbletexts []) by lia.
    destruct (exec_map _ _) as [numbers | e |]; reflexivity.
  - pose proof (one_end_positions _ Hb) as Hone.
    destruct (number_loop_single T fuel vobj bubblePosition
                (first_number vobj) Hb bubbletexts 0 [] false)
      as (alt' & Hloop).
    rewrite Hloop. clear Hloop.
    destruct (List.length (bubble_positions bubblePosition)) as [|[|k]];
      [| |lia].
    + rewrite Nat.mul_0_r in Hlen. rewrite Hlen.
      cbn [repeat seq exec_map exec_bind]. now rewrite flat_map_nil.
    + rewrite Nat.mul_1_r in Hlen. rewrite Hlen. cbn [repeat].
      rewrite flat_map_singleton, map_id.
      destruct (exec_map _ _) as [numbers | e |]; reflexivity.
Qed.

Lemma number_bubbles_by_axis_witness :
  number_bubbles 10
    {| CustomNumber := None; NumberingStyle := Some "A,B,C";
       StartNumber := Some 3%Z |}
    (Some "Both") [tt; tt; tt; tt]
  = Finished [Some "C"; Some "C"; Some "D"; Some "D"].
Proof.
  rewrite (number_bubbles_by_axis unit 10 _ (Some "Both") [tt; tt; tt; tt] 2
             eq_refl).
  reflexivity.
Defined.

Lemma exec_for_ext {A St : Type} (f g : St -> A -> exec St) (l : list A) :
  (forall st a, In a l -> f st a = g st a) ->
  forall st, exec_for f l st = exec_for g l st.
Proof.
  induction l as [|a l IH]; intros H st; cbn [exec_for]; [reflexivity|].
  rewrite (H st a) by now left.
  destruct (g st a) as [st' | e |]; cbn [exec_bind]; try reflexivity.
  apply IH. intros st0 b Hb. apply H. now right.
Qed.

Lemma exec_for_append_lists {A B : Type} (g : A -> exec (list B))
    (l : list A) :
  forall acc : list B,
    exec_for (fun acc a => bs <~ g a ;; Finished (acc ++ bs)%list) l acc
    = (bss <~ exec_map g l ;; Finished (acc ++ concat bss)%list).
Proof.
  induction l as [|a l IH]; intros acc;
    cbn [exec_for exec_map exec_bind concat].
  - now rewrite app_nil_r.
  - destruct (g a) as [bs | e |]; cbn [exec_bind]; try reflexivity.
    rewrite IH. destruct (exec_map g l) as [bss | e |]; cbn [exec_bind concat];
      try reflexivity.
    now rewrite <- app_assoc.
Qed.

Lemma nth_error_pairs {A : Type} (a b : nat -> A) (n : nat) :
  forall s i : nat,
    i < n ->
    nth_error (flat_map (fun k => [a k; b k]) (seq s n)) (i * 2)
    = Some (a (s + i))
    /\ nth_error (flat_map (fun k => [a k; b k]) (seq s n)) (i * 2 + 1)
       = Some (b (s + i)).
Proof.
  induction n as [|n IH]; intros s i Hi; [lia|].
  cbn [seq flat_map app]. destruct i as [|i].
  - cbn [Nat.mul Nat.add nth_error]. now rewrite Nat.add_0_r.
  - destruct (IH (S s) i ltac:(lia)) as [H0 H1].
    replace (S i * 2) with (S (S (i * 2))) by lia.
    replace (S (S (i * 2)) + 1) with (S (S (i * 2 + 1))) by lia.
    cbn [nth_error]. rewrite H0, H1.
    now replace (S s + i) with (s + S i) by lia.
Qed.

Lemma nth_error_map_seq {A : Type} (f : nat -> A) (n i : nat) :
  i < n -> nth_error (map f (seq 0 n)) i = Some (f i).
Proof.
  intros Hi. rewrite nth_error_map, nth_error_seq.
  destruct (Nat.ltb_spec i n); [reflexivity | lia].
Qed.

Section Bubbles.

Context {F : Type} {ops : PyFloat F}.

Variable inverse_multVec : placement F -> Vector F -> Vector F.

Lemma bubble_ends_limited (bp : string) (obj : AxisObject F) (i : nat)
    (p : string) (e0 e1 : Edge F) :
  limit_bool (Limit obj) = true ->
  nth_error (Edges (Shape obj)) (i * 2) = Some e0 ->
  nth_error (Edges (Shape obj)) (i * 2 + 1) = Some e1 ->
  bubble_ends inverse_multVec (Some bp) obj i p
  = Finished
      (bubble_entry bp p (inverse_multVec (Placement obj) (startPoint e0))
         (inverse_multVec (Placement obj) (startPoint e1))).
Proof.
  intros Hl H0 H1. unfold bubble_ends, bubble_entry, list_getitem.
  rewrite Hl, H0, H1. cbn [lift exec_bind]. rewrite !first_vertex.
  cbn [lift exec_bind]. destruct (String.eqb p "Start"); reflexivity.
Qed.

Lemma bubble_ends_whole (bp : string) (obj : AxisObject F) (i : nat)
    (p : string) (e : Edge F) :
  limit_bool (Limit obj) = false ->
  nth_error (Edges (Shape obj)) i = Some e ->
  bubble_ends inverse_multVec (Some bp) obj i p
  = Finished
      (bubble_entry bp p (inverse_multVec (Placement obj) (startPoint e))
         (inverse_multVec (Placement obj) (endPoint e))).
Proof.
  intros Hl He. unfold bubble_ends, bubble_entry, list_getitem.
  rewrite Hl, He. cbn [lift exec_bind Vertexes map].
  destruct (String.eqb p "Start"); reflexivity.
Qed.

(** The bubbles as two nested traversals. *)
Lemma bubble_list_nested (bubblePosition : option string)
    (obj : AxisObject F) :
  bubble_list inverse_multVec bubblePosition obj
  = (bss <~ exec_map
              (fun i =>
                 exec_map (bubble_ends inverse_multVec bubblePosition obj i)
                   (bubble_positions bubblePosition))
              (seq 0
                 (Nat.min
                    (if limit_bool (Limit obj)
                     then List.length (Edges (Shape obj)) / 2
                     else List.length (Edges (Shape obj)))
                    (match Distances obj with
                     | Some l => List.length l
                     | None => 0
                     end))) ;;
     Finished (concat bss)).
Proof.
  unfold bubble_list. cbv zeta.
  rewrite (exec_for_ext _
             (fun bubbles i =>
                bs <~ exec_map
                        (bubble_ends inverse_multVec bubblePosition obj i)
                        (bubble_positions bubblePosition) ;;
                Finished (bubbles ++ bs)%list)).
  - now rewrite exec_for_append_lists.
  - intros st i _. apply exec_for_append.
Qed.

(** Within the range of the loop the choice of the end points indexes
    inside the edges, also under a limit. *)
Lemma bubble_ends_in_range (bp : string) (obj : AxisObject F) (i : nat)
    (p : string) :
  i < Nat.min
        (if limit_bool (Limit obj)
         then List.length (Edges (Shape obj)) / 2
         else List.length (Edges (Shape obj)))
        (match Distances obj with
         | Some l => List.length l
         | None => 0
         end) ->
  exists b : Vector F * Vector F * option bool,
    bubble_ends inverse_multVec (Some bp) obj i p = Finished b.
Proof.
  intros Hi.
  assert (Hm : i < if limit_bool (Limit obj)
                   then List.length (Edges (Shape obj)) / 2
                   else List.length (Edges (Shape obj))) by lia.
  destruct (limit_bool (Limit obj)) eqn:Hl.
  - assert (H2 : i * 2 + 1 < List.length (Edges (Shape obj))).
    { pose proof (Nat.div_mod_eq (List.length (Edges (Shape obj))) 2).
      lia. }
    destruct (nth_error (Edges (Shape obj)) (i * 2)) as [e0|] eqn:H0;
      [|apply nth_error_None in H0; lia].
    destruct (nth_error (Edges (Shape obj)) (i * 2 + 1)) as [e1|] eqn:H1;
      [|apply nth_error_None in H1; lia].
    eexists. now apply bubble_ends_limited with (e0 := e0) (e1 := e1).
  - destruct (nth_error (Edges (Shape obj)) i) as [e|] eqn:He;
      [|apply nth_error_None in He; lia].
    eexists. now apply bubble_ends_whole with (e := e).
Qed.

(** X12: a view object without [BubblePosition] passes the test of line
    340, yet as soon as there is an axis to give a bubble to, line 362
    reads the missing property and the bubble loop raises
    [AttributeError]. *)
Theorem bubble_list_without_position (obj : AxisObject F) :
  0 < Nat.min
        (if limit_bool (Limit obj)
         then List.length (Edges (Shape obj)) / 2
         else List.length (Edges (Shape obj)))
        (match Distances obj with
         | Some l => List.length l
         | None => 0
         end) ->
  bubble_list inverse_multVec None obj = Raised AttributeError.
Proof.
  intros Hm. rewrite bubble_list_nested.
  destruct (Nat.min _ _) as [|m] eqn:Em; [lia|].
  assert (Hle : 1 <= if limit_bool (Limit obj)
                     then List.length (Edges (Shape obj)) / 2
                     else List.length (Edges (Shape obj))) by lia.
  cbn [seq exec_map bubble_positions].
  assert (Hfirst : bubble_ends inverse_multVec None obj 0 "Start"
                   = Raised AttributeError).
  { unfold bubble_ends, list_getitem.
    destruct (limit_bool (Limit obj)).
    - assert (H2 : 1 < List.length (Edges (Shape obj))).
      { pose proof (Nat.div_mod_eq (List.length (Edges (Shape obj))) 2).
        lia. }
      destruct (Edges (Shape obj)) as [|e0 [|e1 rest]];
        try (simpl in H2; lia).
      reflexivity.
    - destruct (Edges (Shape obj)) as [|e rest]; [simpl in Hle; lia|].
      reflexivity. }
  rewrite Hfirst. reflexivity.
Qed.

End Bubbles.

Lemma bubble_list_without_position_witness :
  bubble_list (fun _ p => p) None drawn_axis = Raised AttributeError.
Proof.
  apply (bubble_list_without_position (fun _ p => p) drawn_axis).
  assert (H : limit_bool (Limit drawn_axis) = false)
    by (apply real_fbool; reflexivity).
  rewrite H. cbn. lia.
Defined.

(** *** The loop of the bubbles with their drawing *)

Lemma exec_map_outcome {A B : Type} (f : A -> exec B) (l : list A) :
  match exec_map f l with
  | Finished bs => Forall2 (fun a b => f a = Finished b) l bs
  | Raised e => exists a, In a l /\ f a = Raised e
  | Exhausted => exists a, In a l /\ f a = Exhausted
  end.
Proof.
  induction l as [|a l IH]; cbn [exec_map]; [constructor|].
  destruct (f a) as [b | e |] eqn:Ha; cbn [exec_bind].
  - destruct (exec_map f l) as [bs | e |]; cbn [exec_bind].
    + now constructor.
    + destruct IH as (a' & Hin & Ha').
      exists a'. split; [now right | exact Ha'].
    + destruct IH as (a' & Hin & Ha').
      exists a'. split; [now right | exact Ha'].
  - exists a. split; [now left | exact Ha].
  - exists a. split; [now left | exact Ha].
Qed.

Lemma exec_map_Forall2 {A B : Type} (f : A -> exec B) (l : list A)
    (bs : list B) :
  Forall2 (fun a b => f a = Finished b) l bs -> exec_map f l = Finished bs.
Proof.
  induction 1 as [|a b l bs Ha _ IH]; cbn [exec_map]; [reflexivity|].
  now rewrite Ha, IH.
Qed.

Lemma concat_length_Forall2 {A B : Type} (P : A -> list B -> Prop) (k : nat)
    (l : list A) (bss : list (list B)) :
  (forall a bs, P a bs -> List.length bs = k) ->
  Forall2 P l bss -> List.length (concat bss) = List.length l * k.
Proof.
  intros Hk. induction 1 as [|a bs l bss Ha _ IH]; [reflexivity|].
  cbn [concat List.length]. rewrite length_app, (Hk _ _ Ha), IH. lia.
Qed.

Section BubbleLoop.

Context {F : Type} {ops : PyFloat F}.

Variable inverse_multVec : placement F -> Vector F -> Vector F.
Variable draw_bubble : Vector F -> Vector F -> option bool -> exec unit.

(** One bubble: its end points are picked, then it is drawn. *)
Lemma bubble_loop_nested (bubblePosition : option string)
    (obj : AxisObject F) :
  bubble_loop inverse_multVec draw_bubble bubblePosition obj
  = (bss <~ exec_map
              (fun i =>
                 exec_map
                   (fun p =>
                      b <~ bubble_ends inverse_multVec bubblePosition obj i p ;;
                      _ <~ draw_bubble (fst (fst b)) (snd (fst b)) (snd b) ;;
                      Finished b)
                   (bubble_positions bubblePosition))
              (seq 0
                 (Nat.min
                    (if limit_bool (Limit obj)
                     then List.length (Edges (Shape obj)) / 2
                     else List.length (Edges (Shape obj)))
                    (match Distances obj with
                     | Some l => List.length l
                     | None => 0
                     end))) ;;
     Finished (concat bss)).
Proof.
  unfold bubble_loop. cbv zeta.
  rewrite (exec_for_ext _
             (fun bubbles i =>
                bs <~ exec_map
                        (fun p =>
                           b <~ bubble_ends inverse_multVec bubblePosition
                                  obj i p ;;
                           _ <~ draw_bubble (fst (fst b)) (snd (fst b))
                                  (snd b) ;;
                           Finished b)
                        (bubble_positions bubblePosition) ;;
                Finished (bubbles ++ bs)%list)).
  - now rewrite exec_for_append_lists.
  - intros st i _.
    rewrite <- (exec_for_append
                  (fun p =>
                     b <~ bubble_ends inverse_multVec bubblePosition obj i p ;;
                     _ <~ draw_bubble (fst (fst b)) (snd (fst b)) (snd b) ;;
                     Finished b)).
    apply exec_for_ext. intros bubbles p _.
    destruct (bubble_ends inverse_multVec bubblePosition obj i p)
      as [b | e |]; cbn [exec_bind]; try reflexivity.
    destruct (draw_bubble (fst (fst b)) (snd (fst b)) (snd b)) as [[] | e |];
      reflexivity.
Qed.

(** What one bubble raises, its drawing raised; what it returns, the
    choice of the end points returned. *)
Lemma bubble_drawn (bp : string) (obj : AxisObject F) (i : nat) (p : string) :
  i < Nat.min
        (if limit_bool (Limit obj)
         then List.length (Edges (Shape obj)) / 2
         else List.length (Edges (Shape obj)))
        (match Distances obj with
         | Some l => List.length l
         | None => 0
         end) ->
  match (b <~ bubble_ends inverse_multVec (Some bp) obj i p ;;
         _ <~ draw_bubble (fst (fst b)) (snd (fst b)) (snd b) ;;
         Finished b) with
  | Finished b => bubble_ends inverse_multVec (Some bp) obj i p = Finished b
  | Raised e => exists p1 p2 arrow, draw_bubble p1 p2 arrow = Raised e
  | Exhausted => exists p1 p2 arrow, draw_bubble p1 p2 arrow = Exhausted
  end.
Proof.
  intros Hi.
  destruct (bubble_ends_in_range inverse_multVec bp obj i p Hi) as (b & ->).
  cbn [exec_bind].
  destruct (draw_bubble (fst (fst b)) (snd (fst b)) (snd b))
    as [[] | e |] eqn:Hdraw; cbn [exec_bind]; [reflexivity | |];
    now exists (fst (fst b)), (snd (fst b)), (snd b).
Qed.

(** X11: whatever the shape and the distances of the object, when the view
    object has a [BubblePosition] nothing is raised by the choice of the
    end points of a bubble, which never indexes outside the edges: what the
    bubble loop raises, the drawing of a bubble (lines 373-472) raised.
    When the loop finishes it has drawn one bubble per end for each of the
    first [min(e, n)] axes, [e] being the number of edges, halved under a
    limit, and [n] the number of distances, between the end points that
    [bubble_list] gives. *)
Theorem bubble_loop_total (bp : string) (obj : AxisObject F) :
  match bubble_loop inverse_multVec draw_bubble (Some bp) obj with
  | Finished bubbles =>
      bubble_list inverse_multVec (Some bp) obj = Finished bubbles
      /\ List.length bubbles
         = Nat.min
             (if limit_bool (Limit obj)
              then List.length (Edges (Shape obj)) / 2
              else List.length (Edges (Shape obj)))
             (match Distances obj with
              | Some l => List.length l
              | None => 0
              end)
           * List.length (bubble_positions (Some bp))
  | Raised e => exists p1 p2 arrow, draw_bubble p1 p2 arrow = Raised e
  | Exhausted => exists p1 p2 arrow, draw_bubble p1 p2 arrow = Exhausted
  end.
Proof.
  rewrite bubble_loop_nested, bubble_list_nested.
  set (m := Nat.min _ _).
  set (drawn := fun i p =>
         b <~ bubble_ends inverse_multVec (Some bp) obj i p ;;
         _ <~ draw_bubble (fst (fst b)) (snd (fst b)) (snd b) ;;
         Finished b).
  change (match (bss <~ exec_map
                          (fun i => exec_map (drawn i)
                                      (bubble_positions (Some bp)))
                          (seq 0 m) ;;
                 Finished (concat bss)) with
          | Finished bubbles =>
              (bss <~ exec_map
                        (fun i =>
                           exec_map
                             (bubble_ends inverse_multVec (Some bp) obj i)
                             (bubble_positions (Some bp)))
                        (seq 0 m) ;;
               Finished (concat bss)) = Finished bubbles
              /\ List.length bubbles
                 = m * List.length (bubble_positions (Some bp))
          | Raised e => exists p1 p2 arrow, draw_bubble p1 p2 arrow = Raised e
          | Exhausted =>
              exists p1 p2 arrow, draw_bubble p1 p2 arrow = Exhausted
          end).
  pose proof (exec_map_outcome
                (fun i => exec_map (drawn i) (bubble_positions (Some bp)))
                (seq 0 m)) as Houter.
  destruct (exec_map
              (fun i => exec_map (drawn i) (bubble_positions (Some bp)))
              (seq 0 m)) as [bss | e |]; cbn [exec_bind].
  - assert (Hends :
      Forall2
        (fun i bs =>
           exec_map (bubble_ends inverse_multVec (Some bp) obj i)
             (bubble_positions (Some bp)) = Finished bs
           /\ List.length bs = List.length (bubble_positions (Some bp)))
        (seq 0 m) bss).
    { assert (Hin : forall i, In i (seq 0 m) -> i < m)
        by (intros i Hi; apply in_seq in Hi; lia).
      induction Houter as [|i bs l bss Hi _ IH]; constructor.
      - pose proof (exec_map_outcome (drawn i) (bubble_positions (Some bp)))
          as Hinner.
        rewrite Hi in Hinner. split.
        + apply exec_map_Forall2.
          eapply Forall2_impl; [|exact Hinner].
          intros p b Hp. cbv beta in Hp.
          pose proof (bubble_drawn bp obj i p (Hin i (or_introl eq_refl)))
            as Hb.
          fold (drawn i p) in Hb. now rewrite Hp in Hb.
        + symmetry. exact (Forall2_length Hinner).
      - apply IH. intros j Hj. apply Hin. now right. }
    split.
    + rewrite (exec_map_Forall2 _ _ bss); [reflexivity|].
      eapply Forall2_impl; [|exact Hends]. now intros i bs [H _].
    + rewrite (concat_length_Forall2 _
                 (List.length (bubble_positions (Some bp))) _ _
                 (fun i bs H => proj2 H) Hends).
      now rewrite length_seq.
  - destruct Houter as (i & Hi & Hraise). apply in_seq in Hi.
    pose proof (exec_map_outcome (drawn i) (bubble_positions (Some bp)))
      as Hinner.
    rewrite Hraise in Hinner. destruct Hinner as (p & _ & Hp).
    pose proof (bubble_drawn bp obj i p ltac:(fold m; lia)) as Hb.
    fold (drawn i p) in Hb. now rewrite Hp in Hb.
  - destruct Houter as (i & Hi & Hraise). apply in_seq in Hi.
    pose proof (exec_map_outcome (drawn i) (bubble_positions (Some bp)))
      as Hinner.
    rewrite Hraise in Hinner. destruct Hinner as (p & _ & Hp).
    pose proof (bubble_drawn bp obj i p ltac:(fold m; lia)) as Hb.
    fold (drawn i p) in Hb. now rewrite Hp in Hb.
Qed.

End BubbleLoop.

Section BubblesAfterExecute.

Context {F : Type} {ops : PyFloat F} {laws : PyFloatLaws F}.

Variable inverse_multVec : placement F -> Vector F -> Vector F.

(** X13: on the object that [execute] leaves, and with a view object that
    has a [BubblePosition], the bubbles of the axis [i] are set between
    the base point and the end point of that axis, moved by the inverse
    placement, whether the axis is drawn as one line or as two stubs under
    a limit; every axis gets one bubble per end, in the order of the
    axes. *)
Theorem bubble_list_after_execute (bp : string) (obj obj' : AxisObject F)
    (distances angles : list F) (assigned : list string) :
  computable obj distances angles ->
  execute obj = Ok (obj', assigned) ->
  bubble_list inverse_multVec (Some bp) obj'
  = Finished
      (flat_map
         (fun i =>
            map
              (fun p =>
                 bubble_entry bp p
                   (inverse_multVec (Placement obj) (base_point distances i))
                   (inverse_multVec (Placement obj)
                      (end_point distances angles (Length obj) i)))
              (bubble_positions (Some bp)))
         (seq 0 (List.length distances))).
Proof.
  intros Hc Hrun.
  destruct (edges_after_execute obj obj' _ _ _ Hc Hrun)
    as (He & Hl & Hd & Hp).
  destruct Hc as (Hdist & _).
  rewrite bubble_list_nested, He, Hl, Hd, Hdist.
  set (n := List.length distances) in *.
  assert (Hmin :
    Nat.min
      (if limit_bool (Limit obj)
       then List.length
              (flat_map
                 (axis_segments_at distances angles (Length obj) (Limit obj))
                 (seq 0 n)) / 2
       else List.length
              (flat_map
                 (axis_segments_at distances angles (Length obj) (Limit obj))
                 (seq 0 n)))
      n = n).
  { destruct (limit_bool (Limit obj)) eqn:El.
    - rewrite (flat_map_length_const _ 2), length_seq.
      + rewrite Nat.mul_comm, Nat.div_mul by lia. lia.
      + intros i. unfold axis_segments_at. rewrite axis_segments_length.
        now rewrite El.
    - rewrite (flat_map_length_const _ 1), length_seq; [lia|].
      intros i. unfold axis_segments_at. rewrite axis_segments_length.
      now rewrite El. }
  rewrite Hmin.
  rewrite (exec_map_ext _
             (fun i =>
                Finished
                  (map
                     (fun p =>
                        bubble_entry bp p
                          (inverse_multVec (Placement obj)
                             (base_point distances i))
                          (inverse_multVec (Placement obj)
                             (end_point distances angles (Length obj) i)))
                     (bubble_positions (Some bp))))).
  - rewrite exec_map_finished. cbn [exec_bind].
    now rewrite flat_map_concat_map.
  - intros i Hi. apply in_seq in Hi.
    rewrite <- exec_map_finished. apply exec_map_ext. intros p _.
    destruct (limit_bool (Limit obj)) eqn:El.
    + assert (Hedges :
        flat_map (axis_segments_at distances angles (Length obj) (Limit obj))
          (seq 0 n)
        = flat_map
            (fun k =>
               [LineSegment (base_point distances k)
                  (vadd (base_point distances k)
                     (vscale (direction (angle_at angles k))
                        (limit_value (Limit obj))));
                LineSegment (end_point distances angles (Length obj) k)
                  (vadd (end_point distances angles (Length obj) k)
                     (vscale (direction (angle_at angles k))
                        (fneg (limit_value (Limit obj)))))])
            (seq 0 n)).
      { apply flat_map_ext. intros k.
        unfold axis_segments_at, axis_segments, stubs. now rewrite El. }
      destruct (nth_error_pairs
                  (fun k =>
                     LineSegment (base_point distances k)
                       (vadd (base_point distances k)
                          (vscale (direction (angle_at angles k))
                             (limit_value (Limit obj)))))
                  (fun k =>
                     LineSegment (end_point distances angles (Length obj) k)
                       (vadd (end_point distances angles (Length obj) k)
                          (vscale (direction (angle_at angles k))
                             (fneg (limit_value (Limit obj))))))
                  n 0 i ltac:(lia)) as [H0 H1].
      rewrite <- Hedges, <- He in H0, H1.
      rewrite (bubble_ends_limited inverse_multVec bp obj' i p _ _
                 ltac:(now rewrite Hl) H0 H1).
      now rewrite Hp.
    + assert (Hedges :
        flat_map (axis_segments_at distances angles (Length obj) (Limit obj))
          (seq 0 n)
        = map
            (fun k =>
               LineSegment (base_point distances k)
                 (end_point distances angles (Length obj) k))
            (seq 0 n)).
      { rewrite <- flat_map_singleton. apply flat_map_ext. intros k.
        unfold axis_segments_at, axis_segments, full_line. now rewrite El. }
      pose proof (nth_error_map_seq
                    (fun k =>
                       LineSegment (base_point distances k)
                         (end_point distances angles (Length obj) k))
                    n i ltac:(lia)) as Hi'.
      rewrite <- Hedges, <- He in Hi'.
      rewrite (bubble_ends_whole inverse_multVec bp obj' i p _
                 ltac:(now rewrite Hl) Hi').
      now rewrite Hp.
Qed.

End BubblesAfterExecute.

Lemma bubble_list_after_execute_witness :
  exists (obj' : AxisObject R) (assigned : list string),
    execute (two_axes 500) = Ok (obj', assigned)
    /\ bubble_list (fun _ p => p) (Some "Both") obj'
       = Finished
           [(mkVector 0%R 0%R 0%R, mkVector 0%R 3000%R 0%R, None);
            (mkVector 0%R 3000%R 0%R, mkVector 0%R 0%R 0%R, None);
            (mkVector 4000%R 0%R 0%R, mkVector 304000%R 0%R 0%R, None);
            (mkVector 304000%R 0%R 0%R, mkVector 4000%R 0%R 0%R, None)].
Proof.
  pose proof (two_axes_computable 500) as Hc.
  pose proof (execute_computable _ _ _ Hc (real_no_infinite_angle _)) as Hrun.
  eexists. eexists. split; [exact Hrun|].
  rewrite (bubble_list_after_execute (fun _ p => p) "Both" _ _ _ _ _ Hc Hrun).
  cbn [two_axes Limit Length Placement bubble_positions str_in existsb
       String.eqb Ascii.eqb Bool.eqb orb].
  real_axes. cbn [map]. unfold bubble_entry.
  cbn [String.eqb Ascii.eqb Bool.eqb].
  replace (endswith "Both" "left") with false by reflexivity.
  replace (endswith "Both" "right") with false by reflexivity.
  apply f_equal.
  repeat (apply f_equal2;
          [apply f_equal2; [apply f_equal2; apply vector_eq; lra | reflexivity]
          |]).
  reflexivity.
Defined.

(** * The labels *)

Lemma skipn_nth_error {A : Type} (l : list A) :
  forall (a : nat) (x : A),
    nth_error l a = Some x -> skipn a l = x :: skipn (S a) l.
Proof.
  induction l as [|y l IH]; intros [|a] x H; simpl in *; try discriminate.
  - now inversion H.
  - now apply IH.
Qed.

Section Labels.

Context {F : Type} {ops : PyFloat F}.

Lemma label_loop (offset : placement F) (labels : list string)
    (obj : AxisObject F) (count : nat) :
  forall (a : nat) (nodes : list (string * Vector F * (F * F * F * F))),
    a + count = List.length (Edges (Shape obj)) ->
    exec_for
      (fun nodes i =>
         if (i <? List.length labels)%nat then
           t <~ lift (list_getitem labels i) ;;
           match t with
           | EmptyString => Finished nodes
           | String _ _ =>
               e <~ lift (list_getitem (Edges (Shape obj)) i) ;;
               vert <~ lift (list_index (Vertexes e) 0) ;;
               match Some offset with
               | Some offset =>
                   let pl :=
                     mkPlacement (vadd vert (Base offset)) (Rotation offset) in
                   Finished (nodes ++ [(t, Base pl, Rotation pl)])%list
               | None => Raised UnboundLocalError
               end
           end
         else Finished nodes)
      (seq a count) nodes
    = Finished
        (nodes
         ++ flat_map (label_node offset)
              (combine (skipn a (Edges (Shape obj))) (skipn a labels)))%list.
Proof.
  induction count as [|count IH]; intros a nodes Hlen; cbn [seq exec_for].
  - rewrite skipn_all2 by lia. cbn [combine flat_map]. now rewrite app_nil_r.
  - destruct (nth_error (Edges (Shape obj)) a) as [e|] eqn:He;
      [|apply nth_error_None in He; lia].
    rewrite (skipn_nth_error _ _ _ He).
    destruct (Nat.ltb_spec a (List.length labels)) as [Hlt | Hge].
    + destruct (nth_error labels a) as [t|] eqn:Ht;
        [|apply nth_error_None in Ht; lia].
      rewrite (skipn_nth_error _ _ _ Ht). unfold list_getitem at 1.
      rewrite Ht. cbn [lift exec_bind combine flat_map].
      destruct t as [|c t].
      * cbn [exec_bind]. rewrite IH by lia. reflexivity.
      * unfold list_getitem. rewrite He. cbn [lift exec_bind].
        rewrite first_vertex. cbn [lift exec_bind Base Rotation].
        rewrite IH by lia. unfold label_node at 2. cbn [fst snd].
        now rewrite <- app_assoc.
    + cbn [exec_bind]. rewrite IH by lia.
      rewrite !(skipn_all2 labels) by lia.
      now rewrite !combine_nil.
Qed.

(** X14: with [ShowLabel] set and a limit that is not zero, the number of
    labels is computed as [len(Edges) / 2], a float, and [range] refuses
    it: the label update raises [TypeError] and shows no label. *)
Theorem label_nodes_with_limit (labels : list string)
    (labelOffset : option (placement F)) (obj : AxisObject F) :
  limit_bool (Limit obj) = true ->
  label_nodes (Some true) (Some labels) labelOffset obj = Raised TypeError.
Proof.
  intros Hl. unfold label_nodes. now rewrite Hl.
Qed.

(** X15: with [ShowLabel] set, no limit and a label offset, the label
    update makes one node for every non-empty label whose index is the
    index of an edge: its text is the label, it is placed at the start
    point of that edge moved by the base of the offset, and turned by the
    rotation of the offset.  Empty labels and labels beyond the last edge
    give no node. *)
Theorem label_nodes_by_edge (labels : list string) (offset : placement F)
    (obj : AxisObject F) :
  limit_bool (Limit obj) = false ->
  label_nodes (Some true) (Some labels) (Some offset) obj
  = Finished
      (Some (flat_map (label_node offset)
               (combine (Edges (Shape obj)) labels))).
Proof.
  intros Hl. unfold label_nodes. rewrite Hl. cbn [range exec_bind].
  rewrite Nat2Z.id.
  rewrite (label_loop offset labels obj _ 0 []) by reflexivity.
  reflexivity.
Qed.

End Labels.

Lemma label_nodes_with_limit_witness :
  limit_bool (Limit (two_axes 500)) = true
  /\ label_nodes (Some true) (Some ["A"; "B"]%string) None (two_axes 500)
     = Raised TypeError.
Proof.
  assert (H : limit_bool (Limit (two_axes 500)) = true).
  { apply real_fbool_true. lra. }
  split; [exact H|]. now apply label_nodes_with_limit.
Defined.

Lemma label_nodes_by_edge_witness :
  limit_bool (Limit drawn_axis) = false
  /\ label_nodes (Some true) (Some ["North"; "spare"]%string)
       (Some (mkPlacement (mkVector 100%R 0%R 0%R) (0%R, 0%R, 0%R, 1%R)))
       drawn_axis
     = Finished
         (Some [("North"%string, mkVector (0 + 100)%R (0 + 0)%R (0 + 0)%R,
                 (0%R, 0%R, 0%R, 1%R))]).
Proof.
  assert (H : limit_bool (Limit drawn_axis) = false)
    by (apply real_fbool; reflexivity).
  split; [exact H|].
  rewrite (label_nodes_by_edge _ _ drawn_axis H). reflexivity.
Defined.

(** * The task panel *)

Lemma exec_for_invariant {A St : Type} (P : St -> Prop)
    (body : St -> A -> exec St) (l : list A) :
  (forall st a st', P st -> body st a = Finished st' -> P st') ->
  forall st st', P st -> exec_for body l st = Finished st' -> P st'.
Proof.
  intros Hstep. induction l as [|a l IH]; intros st st' HP Hrun;
    cbn [exec_for] in Hrun.
  - now inversion Hrun; subst.
  - destruct (body st a) as [st1 | e |] eqn:Hb; cbn [exec_bind] in Hrun;
      try discriminate.
    apply (IH st1 st'); [apply (Hstep st a); assumption | exact Hrun].
Qed.

Lemma filter_all {A : Type} (p : A -> bool) (l : list A) :
  (forall x, In x l -> p x = true) -> filter p l = l.
Proof.
  induction l as [|a l IH]; intros H; cbn [filter]; [reflexivity|].
  rewrite (H a) by now left.
  rewrite IH by (intros x Hx; apply H; now right). reflexivity.
Qed.

Lemma filter_none {A : Type} (p : A -> bool) (l : list A) :
  (forall x, In x l -> p x = false) -> filter p l = [].
Proof.
  induction l as [|a l IH]; intros H; cbn [filter]; [reflexivity|].
  rewrite (H a) by now left.
  apply IH. intros x Hx. apply H. now right.
Qed.

Lemma filter_of_map {A B : Type} (p : B -> bool) (f : A -> B) (l : list A) :
  filter p (map f l) = map f (filter (fun a => p (f a)) l).
Proof.
  induction l as [|a l IH]; cbn [map filter]; [reflexivity|].
  destruct (p (f a)); cbn [map]; now rewrite IH.
Qed.

Lemma seq_split (n r : nat) :
  r < n -> seq 0 n = (seq 0 r ++ r :: seq (S r) (n - S r))%list.
Proof.
  intros Hr. replace n with (r + S (n - S r)) at 1 by lia.
  now rewrite seq_app.
Qed.

Lemma filter_only (n r : nat) :
  r < n -> filter (fun k => Nat.eqb k r) (seq 0 n) = [r].
Proof.
  intros Hr. rewrite (seq_split n r Hr), filter_app. cbn [filter].
  rewrite Nat.eqb_refl.
  rewrite !filter_none; [reflexivity | |];
    intros x Hx; apply in_seq in Hx; apply Nat.eqb_neq; lia.
Qed.

Lemma filter_but (n r : nat) :
  r < n ->
  filter (fun k => negb (Nat.eqb k r)) (seq 0 n)
  = (seq 0 r ++ seq (S r) (n - S r))%list.
Proof.
  intros Hr. rewrite (seq_split n r Hr) at 1. rewrite filter_app.
  cbn [filter]. rewrite Nat.eqb_refl. cbn [negb].
  rewrite !filter_all; [reflexivity | |];
    intros x Hx; apply in_seq in Hx; apply negb_true_iff, Nat.eqb_neq; lia.
Qed.

Lemma without_map_seq {A : Type} (f : nat -> A) (n r : nat) :
  r < n ->
  without r (map f (seq 0 n))
  = map f (seq 0 r ++ seq (S r) (n - S r))%list.
Proof.
  intros Hr. unfold without.
  rewrite (seq_split n r Hr), map_app, map_app. cbn [map].
  assert (Hlen : List.length (map f (seq 0 r)) = r)
    by now rewrite length_map, length_seq.
  rewrite firstn_app, skipn_app, Hlen.
  rewrite firstn_all2 by lia.
  rewrite (skipn_all2 (map f (seq 0 r))) by lia.
  replace (r - r) with 0 by lia. replace (S r - r) with 1 by lia.
  cbn [firstn skipn app]. now rewrite app_nil_r.
Qed.

Lemma fitted_same {A : Type} (default : A) (l : list A) :
  fitted (List.length l) default l = l.
Proof.
  unfold fitted. apply nth_ext with (d := default) (d' := default).
  - now rewrite length_map, length_seq.
  - intros i Hi. rewrite length_map, length_seq in Hi.
    rewrite (nth_indep _ _ (nth 0 l default))
      by now rewrite length_map, length_seq.
    rewrite (map_nth (fun i => nth i l default)), seq_nth by lia.
    reflexivity.
Qed.

Section PanelProofs.

Context {F : Type} {ops : PyFloat F}.

Variable float_of_str : string -> option F.
Variable str_of_float : F -> string.
Variable int_of_str : string -> option Z.

(** X16: whatever the tree holds, what [resetObject] writes are three
    lists of the same length: after any edit made through the panel the
    object has as many angles and labels as distances, which is what
    [execute] asks for. *)
Theorem resetObject_equal_lengths (tree : list TreeItem) (remove : option Z)
    (d a : list F) (l : list string) :
  resetObject float_of_str tree remove = Finished (d, a, l) ->
  List.length d = List.length a /\ List.length a = List.length l.
Proof.
  unfold resetObject.
  apply (exec_for_invariant
           (fun st : list F * list F * list string =>
              List.length (fst (fst st)) = List.length (snd (fst st))
              /\ List.length (snd (fst st)) = List.length (snd st)));
    [|split; reflexivity].
  intros [[d0 a0] l0] i [[d1 a1] l1] [Hda Hal] Hstep.
  cbn [fst snd] in *. unfold resetObject_step in Hstep.
  destruct (lift _) as [it | e |]; cbn [exec_bind] in Hstep;
    try discriminate.
  destruct (match remove with
            | Some r => negb (r =? Z.of_nat i)%Z
            | None => true
            end).
  - destruct (cell_value float_of_str (text1 it)) as [x | e |];
      cbn [exec_bind] in Hstep; try discriminate.
    destruct (cell_value float_of_str (text2 it)) as [y | e |];
      cbn [exec_bind] in Hstep; try discriminate.
    inversion Hstep; subst. rewrite !length_app. cbn [List.length]. lia.
  - inversion Hstep; subst. now split.
Qed.


(** The rows that [update] makes are found by their number. *)
Lemma find_row (distances angles : list F) (labels : list string)
    (n i : nat) :
  i < n ->
  list_index
    (findItems (map (panel_row str_of_float distances angles labels) (seq 0 n))
       (str (Z.of_nat i + 1))) 0
  = Ok (panel_row str_of_float distances angles labels i).
Proof.
  intros Hi. unfold findItems. rewrite filter_of_map.
  rewrite (filter_ext _ (fun k => Nat.eqb k i)).
  - now rewrite (filter_only n i Hi).
  - intros k. cbn [panel_row text0].
    destruct (Nat.eqb_spec k i) as [-> | Hne].
    + apply String.eqb_refl.
    + apply String.eqb_neq. intros H. apply str_injective in H. lia.
Qed.

Lemma update_rows (obj : AxisObject F) (distances angles : list F)
    (labels : option (list string)) :
  Distances obj = Some distances -> Angles obj = Some angles ->
  update str_of_float (Some obj) labels
  = Finished
      (map
         (panel_row str_of_float distances angles
            (match labels with Some ls => ls | None => [] end))
         (seq 0 (List.length distances))).
Proof.
  intros Hd Ha. unfold update. rewrite Hd, Ha.
  rewrite (exec_for_ext _
             (fun tree i =>
                row <~ Finished
                         (panel_row str_of_float distances angles
                            (match labels with Some ls => ls | None => [] end)
                            i) ;;
                Finished (tree ++ [row])%list)).
  - rewrite exec_for_append, exec_map_finished. reflexivity.
  - intros tree i _. cbn [exec_bind]. unfold panel_row.
    destruct labels as [ls|]; [reflexivity|].
    cbn [List.length Nat.ltb Nat.leb]. reflexivity.
Qed.

Lemma reset_loop (tree : list TreeItem) (remove : option Z)
    (row : nat -> TreeItem) (dv av : nat -> F) (n : nat) :
  (forall i, i < n ->
             list_index (findItems tree (str (Z.of_nat i + 1))) 0
             = Ok (row i)) ->
  (forall i, i < n ->
             cell_value float_of_str (text1 (row i)) = Finished (dv i)) ->
  (forall i, i < n ->
             cell_value float_of_str (text2 (row i)) = Finished (av i)) ->
  forall (count start : nat) (d a : list F) (l : list string),
    start + count <= n ->
    exec_for (resetObject_step float_of_str tree remove) (seq start count)
      (d, a, l)
    = Finished
        ((d ++ map dv (filter (kept remove) (seq start count)))%list,
         (a ++ map av (filter (kept remove) (seq start count)))%list,
         (l ++ map (fun i => text3 (row i))
                (filter (kept remove) (seq start count)))%list).
Proof.
  intros Hfind Hd Ha.
  induction count as [|count IH]; intros start d a l Hle;
    cbn [seq exec_for filter map].
  - now rewrite !app_nil_r.
  - unfold resetObject_step at 1.
    rewrite Hfind by lia. cbn [lift exec_bind].
    change (match remove with
            | Some r => negb (r =? Z.of_nat start)%Z
            | None => true
            end) with (kept remove start).
    destruct (kept remove start).
    + rewrite Hd by lia. cbn [exec_bind]. cbv zeta.
      rewrite Ha by lia. cbn [exec_bind map]. cbv zeta.
      rewrite IH by lia. now rewrite <- !app_assoc.
    + cbn [exec_bind]. rewrite IH by lia. reflexivity.
Qed.

(** X17: filling the tree from the object and writing it back at once
    leaves the distances as they are, and gives as many angles and labels
    as there are distances: angles cut or filled up with 0.0, labels cut
    or filled up with the empty text.  With as many angles and labels as
    distances nothing changes.  It holds as far as [float] reads back what
    [str] prints of the distances and of the angles. *)
Theorem update_resetObject (obj : AxisObject F) (distances angles : list F)
    (labels : list string) :
  Distances obj = Some distances -> Angles obj = Some angles ->
  (forall x, In x (distances ++ angles) ->
             cell_value float_of_str (str_of_float x) = Finished x) ->
  exists tree : list TreeItem,
    update str_of_float (Some obj) (Some labels) = Finished tree
    /\ resetObject float_of_str tree None
       = Finished (distances,
                   fitted (List.length distances) (float_of_int 0) angles,
                   fitted (List.length distances) "" labels)
    /\ (List.length angles = List.length distances ->
        List.length labels = List.length distances ->
        resetObject float_of_str tree None
        = Finished (distances, angles, labels)).
Proof.
  intros HD HA Hround.
  set (n := List.length distances).
  exists (map (panel_row str_of_float distances angles labels) (seq 0 n)).
  split; [now apply update_rows|].
  assert (Hrun :
    resetObject float_of_str
      (map (panel_row str_of_float distances angles labels) (seq 0 n)) None
    = Finished (distances, fitted n (float_of_int 0) angles,
                fitted n "" labels)).
  { unfold resetObject. rewrite length_map, length_seq.
    rewrite (reset_loop _ None
               (panel_row str_of_float distances angles labels)
               (fun i => nth i distances (float_of_int 0))
               (fun i => nth i angles (float_of_int 0)) n).
    - rewrite (filter_all (kept None)) by reflexivity. cbn [app].
      change (map (fun i => nth i distances (float_of_int 0)) (seq 0 n))
        with (fitted n (float_of_int 0) distances).
      unfold n at 1. rewrite fitted_same.
      do 2 f_equal. unfold fitted. apply map_ext. intros i.
      cbn [panel_row text3].
      destruct (Nat.ltb_spec i (List.length labels)); [reflexivity|].
      now rewrite nth_overflow.
    - intros i Hi. now apply find_row.
    - intros i Hi. cbn [panel_row text1].
      destruct (Nat.ltb_spec i (List.length distances)); [|unfold n in Hi; lia].
      apply Hround, in_or_app. left. now apply nth_In.
    - intros i Hi. cbn [panel_row text2].
      destruct (Nat.ltb_spec i (List.length angles)).
      + apply Hround, in_or_app. right. now apply nth_In.
      + now rewrite nth_overflow.
    - lia. }
  split; [exact Hrun|].
  intros Ha Hl. rewrite Hrun. subst n.
  rewrite <- Ha at 1. rewrite <- Hl. now rewrite !fitted_same.
Qed.

(** X18: with the tree as [update] fills it and its row of index [r] as
    the current item, [removeElement] writes the three lists of the
    object, cut or filled to the number of distances, without their entry
    of index [r], and keeps every other entry in its place.  It holds as
    far as [float] reads back what [str] prints of the distances and the
    angles, and [int] reads back the number of the row. *)
Theorem removeElement_row (obj : AxisObject F) (distances angles : list F)
    (labels : list string) (r : nat) :
  Distances obj = Some distances -> Angles obj = Some angles ->
  (forall x, In x (distances ++ angles) ->
             cell_value float_of_str (str_of_float x) = Finished x) ->
  int_of_str (str (Z.of_nat r + 1)) = Some (Z.of_nat r + 1)%Z ->
  r < List.length distances ->
  exists tree : list TreeItem,
    update str_of_float (Some obj) (Some labels) = Finished tree
    /\ nth_error tree r
       = Some (panel_row str_of_float distances angles labels r)
    /\ removeElement float_of_str int_of_str tree
         (Some (panel_row str_of_float distances angles labels r))
       = Finished
           (Some (without r distances,
                  without r
                    (fitted (List.length distances) (float_of_int 0) angles),
                  without r (fitted (List.length distances) "" labels))).
Proof.
  intros HD HA Hround Hint Hr.
  set (n := List.length distances) in *.
  exists (map (panel_row str_of_float distances angles labels) (seq 0 n)).
  split; [now apply update_rows|].
  split; [now apply nth_error_map_seq|].
  unfold removeElement. cbn [panel_row text0]. rewrite Hint.
  unfold resetObject. rewrite length_map, length_seq.
  rewrite (reset_loop _ (Some (Z.of_nat r + 1 - 1)%Z)
             (panel_row str_of_float distances angles labels)
             (fun i => nth i distances (float_of_int 0))
             (fun i => nth i angles (float_of_int 0)) n).
  - rewrite (filter_ext (kept (Some (Z.of_nat r + 1 - 1)%Z))
               (fun k => negb (Nat.eqb k r))).
    + rewrite (filter_but n r Hr). cbn [app exec_bind].
      rewrite <- !without_map_seq by exact Hr.
      change (map (fun i => nth i distances (float_of_int 0)) (seq 0 n))
        with (fitted n (float_of_int 0) distances).
      change (map (fun i => nth i angles (float_of_int 0)) (seq 0 n))
        with (fitted n (float_of_int 0) angles).
      unfold n at 1. rewrite fitted_same.
      do 4 f_equal. unfold fitted. apply map_ext. intros i.
      cbn [panel_row text3].
      destruct (Nat.ltb_spec i (List.length labels)); [reflexivity|].
      now rewrite nth_overflow.
    + intros k. unfold kept. f_equal.
      destruct (Nat.eqb_spec k r) as [-> | Hne];
        [apply Z.eqb_eq | apply Z.eqb_neq]; lia.
  - intros i Hi. now apply find_row.
  - intros i Hi. cbn [panel_row text1].
    destruct (Nat.ltb_spec i (List.length distances)); [|unfold n in Hi; lia].
    apply Hround, in_or_app. left. now apply nth_In.
  - intros i Hi. cbn [panel_row text2].
    destruct (Nat.ltb_spec i (List.length angles)).
    + apply Hround, in_or_app. right. now apply nth_In.
    + now rewrite nth_overflow.
  - lia.
Qed.

End PanelProofs.

Lemma toy_round_trip (x : R) :
  x = 0%R \/ x = 1%R -> cell_value toy_float (toy_str x) = Finished x.
Proof.
  intros [-> | ->]; unfold toy_str.
  - destruct (Req_dec_T 0 1) as [E | _]; [lra | reflexivity].
  - destruct (Req_dec_T 1 1) as [_ | E]; [reflexivity | now elim E].
Qed.

Lemma panel_axis_round_trip (x : R) :
  In x ([1%R; 0%R; 1%R] ++ [0%R; 1%R; 0%R]) ->
  cell_value toy_float (toy_str x) = Finished x.
Proof.
  intros H. apply toy_round_trip. cbn [app In] in H.
  repeat (destruct H as [<- | H]; [auto|]). destruct H.
Qed.

Lemma resetObject_equal_lengths_witness :
  resetObject toy_float
    [{| text0 := "2"; text1 := "0.0"; text2 := "1.0"; text3 := "B" |};
     {| text0 := "1"; text1 := "1.0"; text2 := ""; text3 := "" |}]
    None
  = Finished ([1%R; 0%R], [0%R; 1%R], [""; "B"]%string)
  /\ List.length [1%R; 0%R] = List.length [0%R; 1%R]
  /\ List.length [0%R; 1%R] = List.length [""; "B"]%string.
Proof.
  assert (H : resetObject toy_float
                [{| text0 := "2"; text1 := "0.0"; text2 := "1.0";
                    text3 := "B" |};
                 {| text0 := "1"; text1 := "1.0"; text2 := ""; text3 := "" |}]
                None
              = Finished ([1%R; 0%R], [0%R; 1%R], [""; "B"]%string))
    by reflexivity.
  split; [exact H|].
  exact (resetObject_equal_lengths toy_float _ _ _ _ _ H).
Defined.

Lemma update_resetObject_witness :
  exists tree : list TreeItem,
    update toy_str (Some panel_axis) (Some ["a"; "b"]%string) = Finished tree
    /\ resetObject toy_float tree None
       = Finished ([1%R; 0%R; 1%R],
                   fitted 3 0%R [0%R; 1%R; 0%R],
                   fitted 3 ""%string ["a"; "b"]%string).
Proof.
  destruct (update_resetObject toy_float toy_str panel_axis
              [1%R; 0%R; 1%R] [0%R; 1%R; 0%R] ["a"; "b"]%string
              eq_refl eq_refl panel_axis_round_trip)
    as (tree & Hupdate & Hreset & _).
  exists tree. split; [exact Hupdate | exact Hreset].
Defined.

Lemma removeElement_row_witness :
  exists tree : list TreeItem,
    update toy_str (Some panel_axis) (Some ["a"; "b"; "c"]%string)
    = Finished tree
    /\ removeElement toy_float decimal_value tree
         (Some (panel_row toy_str [1%R; 0%R; 1%R] [0%R; 1%R; 0%R]
                  ["a"; "b"; "c"]%string 1))
       = Finished
           (Some (without 1 [1%R; 0%R; 1%R],
                  without 1 (fitted 3 0%R [0%R; 1%R; 0%R]),
                  without 1 (fitted 3 ""%string ["a"; "b"; "c"]%string))).
Proof.
  destruct (removeElement_row toy_float toy_str decimal_value panel_axis
              [1%R; 0%R; 1%R] [0%R; 1%R; 0%R] ["a"; "b"; "c"]%string 1
              eq_refl eq_refl panel_axis_round_trip
              (decimal_value_str _) ltac:(simpl; lia))
    as (tree & Hupdate & _ & Hremove).
  exists tree. split; [exact Hupdate | exact Hremove].
Defined.

(** * Running [execute] again, and the order of the axes *)

(** X19: [execute] reads neither [Shape] nor anything it writes: run on
    the object it has just left, it returns that object again with the
    same properties assigned, so recomputing twice is recomputing once. *)
Theorem execute_idempotent (F : Type) (ops : PyFloat F)
    (obj obj' : AxisObject F) (assigned : list string) :
  execute obj = Ok (obj', assigned) ->
  execute obj' = Ok (obj', assigned).
Proof.
  unfold execute. cbv zeta.
  destruct (execute_geoms (distances_of obj) (angles_of obj) (Length obj)
              (Limit obj)) as [geoms | e] eqn:Hg; cbn [bind];
    [|discriminate].
  destruct geoms as [|e geoms]; cbn [list_bool]; intros H; inversion H; subst.
  - rewrite Hg. reflexivity.
  - change (distances_of (set_Placement (Placement obj)
                            (set_Shape (Compound (e :: geoms)) obj)))
      with (distances_of obj).
    change (angles_of (set_Placement (Placement obj)
                         (set_Shape (Compound (e :: geoms)) obj)))
      with (angles_of obj).
    cbn [set_Placement set_Shape Length Limit Placement Distances Angles
         Shape].
    rewrite Hg. reflexivity.
Qed.

Lemma execute_idempotent_witness :
  exists (obj' : AxisObject R) (assigned : list string),
    execute (two_axes 0) = Ok (obj', assigned)
    /\ execute obj' = Ok (obj', assigned).
Proof.
  pose proof (execute_computable _ _ _ (two_axes_computable 0)
                (real_no_infinite_angle _)) as Hrun.
  eexists. eexists. split; [exact Hrun|].
  exact (execute_idempotent R real_float _ _ _ Hrun).
Defined.



